(** * Tessdata path discovery (lios/ocr): a shallow embedding

    The two Python modules [tesseract_path_finder.py] (class
    [FastTessdataFinder]) and [tessract_path_finder.py] (class
    [TesseractPathFinder]) look for Tesseract language-data directories.
    This development embeds their validators, the cache, the probing loop,
    the ranker and the language listing as functions over an explicit
    filesystem, and proves the properties the specification states about
    them.

    Conventions.
    - A Python [str] is a [string]; path names are taken to be ASCII, and
      [lower()] acts on the ASCII letters.
    - The filesystem is a finite map from path strings to what the
      operating system finds there ([node]).  A path that goes through a
      symbolic link simply maps to the node the kernel resolves it to.
      The operating system resolves the empty string to nothing; pathlib
      reads it as ['.'] before it asks ([Path]).
    - A Python call that may raise returns [py A]: [Ok a] or [Raise e].
      [try ... except] is [try_except].
    - [time.time()] is an integer clock (seconds).  Every reading may be
      later than the one before: the time that passes between two readings
      is given by the host.
    - [verbose] only prints; printing is not modelled. *)

From stdpp Require Import base decidable option list strings gmap sorting.
From Stdlib Require Import ZArith Lia Ascii.

Local Open Scope Z_scope.

(** ** Exceptions *)

Inductive exn :=
| FileNotFoundError
| NotADirectoryError
| PermissionError
| RuntimeError.   (* raised by Path.home() only *)

Inductive py (A : Type) :=
| Ok (a : A)
| Raise (e : exn).
Arguments Ok {A} a.
Arguments Raise {A} e.

Global Instance py_ret : MRet py := fun _ a => Ok a.
Global Instance py_bind : MBind py := fun _ _ k m =>
  match m with
  | Ok a => k a
  | Raise e => Raise e
  end.

(** [try: body except Exception: handler] -- every exception that a
    [try] block of the model can raise is an [OSError], so the clauses
    [except OSError], [except Exception] and the bare [except:] all catch
    the same set.  [RuntimeError] is raised by [Path.home()] alone, which
    [__init__] calls outside any [try]. *)
Definition try_except {A} (body : py A) (handler : exn -> A) : A :=
  match body with
  | Ok a => a
  | Raise e => handler e
  end.

(** ** Strings *)

Module Str.

Definition lower_ascii (c : ascii) : ascii :=
  let n := N_of_ascii c in
  if ((65 <=? n) && (n <=? 90))%N then ascii_of_N (n + 32) else c.

(** [s.lower()] on ASCII text: the letters [A]-[Z] are mapped to [a]-[z],
    every other character is kept. *)
Fixpoint lower (s : string) : string :=
  match s with
  | "" => ""
  | String c s' => String (lower_ascii c) (lower s')
  end.

(** [len(s)] *)
Definition len (s : string) : Z := Z.of_nat (String.length s).

(** [s.startswith(t)] *)
Definition startswith (s t : string) : bool := String.prefix t s.

(** [s.endswith(t)] *)
Fixpoint endswith (s t : string) : bool :=
  String.eqb s t ||
  match s with
  | "" => false
  | String _ s' => endswith s' t
  end.

(** [t in s] (substring test) *)
Fixpoint contains (s t : string) : bool :=
  String.prefix t s ||
  match s with
  | "" => false
  | String _ s' => contains s' t
  end.

(** [s[:n]] and [s[n:]] for [0 <= n] *)
Fixpoint take (n : nat) (s : string) : string :=
  match n, s with
  | S n', String c s' => String c (take n' s')
  | _, _ => ""
  end.

Fixpoint drop (n : nat) (s : string) : string :=
  match n, s with
  | S n', String _ s' => drop n' s'
  | _, _ => s
  end.

(** [s.rfind(c)], counting positions from [i]; [-1] when [c] is absent *)
Fixpoint rfind_from (c : ascii) (s : string) (i : Z) : Z :=
  match s with
  | "" => -1
  | String a s' =>
      let r := rfind_from c s' (i + 1) in
      if 0 <=? r then r else if Ascii.eqb a c then i else -1
  end.

Definition rfind (c : ascii) (s : string) : Z := rfind_from c s 0.

(** [s[:-n]] for [0 < n] *)
Definition drop_last (n : nat) (s : string) : string :=
  take (String.length s - n) s.

(** [s.split(sep)] for a one-character separator *)
Fixpoint split (sep : ascii) (s : string) : list string :=
  match s with
  | "" => [""]
  | String c s' =>
      match split sep s' with
      | [] => [""]
      | w :: ws => if Ascii.eqb c sep then "" :: w :: ws
                   else String c w :: ws
      end
  end.

(** [sep.join(l)] *)
Fixpoint join (sep : string) (l : list string) : string :=
  match l with
  | [] => ""
  | [w] => w
  | w :: ws => w +:+ sep +:+ join sep ws
  end.

End Str.

(** ** pathlib and os.path *)

(** [PurePath.suffix]: the last dot-separated part of the name, dot
    included; empty when the only dot is the first or the last character. *)
Definition suffix (name : string) : string :=
  let i := Str.rfind "."%char name in
  if (0 <? i) && (i <? Str.len name - 1) then Str.drop (Z.to_nat i) name
  else "".

(** [PurePath.stem] *)
Definition stem (name : string) : string :=
  let i := Str.rfind "."%char name in
  if (0 <? i) && (i <? Str.len name - 1) then Str.take (Z.to_nat i) name
  else name.

(** [posixpath.join(a, b)] *)
Definition path_join (a b : string) : string :=
  if Str.startswith b "/" then b
  else if String.eqb a "" || Str.endswith a "/" then a +:+ b
  else a +:+ "/" +:+ b.

(** The loop of [posixpath.normpath] over the components. [new_comps] is
    kept reversed, so its head is [new_comps[-1]]. *)
Fixpoint normpath_comps (initial_slashes : nat) (comps new_comps : list string)
  : list string :=
  match comps with
  | [] => rev new_comps
  | comp :: rest =>
      if String.eqb comp "" || String.eqb comp "." then
        normpath_comps initial_slashes rest new_comps
      else if negb (String.eqb comp "..")
              || (Nat.eqb initial_slashes 0
                  && match new_comps with [] => true | _ => false end)
              || match new_comps with
                 | last :: _ => String.eqb last ".."
                 | [] => false
                 end
      then normpath_comps initial_slashes rest (comp :: new_comps)
      else normpath_comps initial_slashes rest (tl new_comps)
  end.

(** [posixpath.normpath(path)] *)
Definition normpath (path : string) : string :=
  if String.eqb path "" then "."
  else
    let initial_slashes :=
      if Str.startswith path "/" then
        if Str.startswith path "//" && negb (Str.startswith path "///")
        then 2%nat else 1%nat
      else 0%nat in
    let comps := normpath_comps initial_slashes (Str.split "/"%char path) [] in
    let p := Str.join "/" comps in
    let p := match initial_slashes with
             | O => p
             | 1%nat => "/" +:+ p
             | _ => "//" +:+ p
             end in
    if String.eqb p "" then "." else p.

(** [posixpath.abspath(path)] with the current directory [cwd] *)
Definition abspath (cwd path : string) : string :=
  normpath (if Str.startswith path "/" then path else path_join cwd path).

(** ** The filesystem *)

Inductive node :=
| File (readable : bool) (st_size : Z)
| Dir (readable : bool) (st_size : Z) (entries : list string)
| Denied.   (* below a directory without search permission: EACCES *)

Abbreviation filesystem := (gmap string node).

(** The path that pathlib asks the operating system about when it is
    given the string [path].  pathlib drops a trailing slash, doubled
    slashes and [.] components, all spellings that the operating system
    resolves to the same node as the string itself; and it reads the empty
    string, which the operating system resolves to nothing, as the current
    directory ['.']. *)
Definition Path (path : string) : string :=
  if String.eqb path "" then "." else path.

(** [p.is_dir()] for a [Path] object whose string is [p]: pathlib answers
    [False] for a missing path and lets [PermissionError] through. *)
Definition is_dir (fs : filesystem) (p : string) : py bool :=
  match fs !! p with
  | Some (Dir _ _ _) => Ok true
  | Some Denied => Raise PermissionError
  | _ => Ok false
  end.

(** [p.exists()] *)
Definition exists_ (fs : filesystem) (p : string) : py bool :=
  match fs !! p with
  | None => Ok false
  | Some Denied => Raise PermissionError
  | Some _ => Ok true
  end.

(** [os.listdir(p)]; also the names [p.iterdir()] yields *)
Definition listdir (fs : filesystem) (p : string) : py (list string) :=
  match fs !! p with
  | Some (Dir true _ entries) => Ok entries
  | Some (Dir false _ _) => Raise PermissionError
  | Some (File _ _) => Raise NotADirectoryError
  | Some Denied => Raise PermissionError
  | None => Raise FileNotFoundError
  end.

(** [os.path.isdir(p)], [os.path.isfile(p)], [os.path.exists(p)]:
    the [os.path] predicates swallow every [OSError]. *)
Definition os_path_isdir (fs : filesystem) (p : string) : bool :=
  match fs !! p with Some (Dir _ _ _) => true | _ => false end.

Definition os_path_isfile (fs : filesystem) (p : string) : bool :=
  match fs !! p with Some (File _ _) => true | _ => false end.

Definition os_path_exists (fs : filesystem) (p : string) : bool :=
  match fs !! p with Some (File _ _) | Some (Dir _ _ _) => true | _ => false end.

(** [os.access(p, os.R_OK)] *)
Definition os_access_R (fs : filesystem) (p : string) : bool :=
  match fs !! p with
  | Some (File r _) => r
  | Some (Dir r _ _) => r
  | _ => false
  end.

(** [p.glob('*.traineddata')], as names: the entries of [p] that
    the pattern matches.  pathlib's [*] also matches the empty string and
    a leading dot; a path that is no directory, or a listing that is
    refused, gives no match. *)
Definition glob_traineddata (fs : filesystem) (p : string) : py (list string) :=
  is_dir fs p ≫= λ d : bool,
  if d then
    Ok (try_except (es ← listdir fs p;
                    Ok (filter (fun f => Str.endswith f ".traineddata" = true) es))
                   (fun _ => []))
  else Ok [].

(** [f.stat().st_size] for the entry [name] of directory [p] *)
Definition stat_size (fs : filesystem) (p name : string) : py Z :=
  match fs !! path_join p name with
  | Some (File _ sz) => Ok sz
  | Some (Dir _ sz _) => Ok sz
  | Some Denied => Raise PermissionError
  | None => Raise FileNotFoundError
  end.

(** ** The validators *)

(** [FastTessdataFinder._is_valid_tessdata_quick] *)
Definition _is_valid_tessdata_quick (fs : filesystem) (path : string) : bool :=
  try_except
    (let p := Path path in
     is_dir fs p ≫= λ d : bool,
     if negb d then Ok false
     else
       es ← listdir fs p;
       Ok (existsb (fun f => String.eqb (suffix f) ".traineddata") es))
    (fun _ => false).

(** [TesseractPathFinder._is_valid_tessdata_dir] *)
Definition _is_valid_tessdata_dir (fs : filesystem) (path : string) : bool :=
  try_except
    (files ← listdir fs path;
     Ok (existsb (fun f => Str.endswith f ".traineddata") files))
    (fun _ => false).

(** ** [sorted(l, key=...)]

    Python's [sorted] is stable and compares keys with [<] only.  The
    stable arrangement of a list is unique, so the result is that of a
    stable insertion sort. *)

Section Sorted.
Context {A K : Type} (lt : K -> K -> bool) (key : A -> K).

Fixpoint insert_sorted (x : A) (l : list A) : list A :=
  match l with
  | [] => [x]
  | y :: l' =>
      if lt (key y) (key x) then y :: insert_sorted x l'
      else x :: y :: l'
  end.

Definition sorted (l : list A) : list A := foldr insert_sorted [] l.
End Sorted.

(** ** The ranker: [FastTessdataFinder._finalize_paths] *)

(** [any(m in path_lower for m in markers)] *)
Definition any_in (path_lower : string) (markers : list string) : bool :=
  existsb (fun m => Str.contains path_lower m) markers.

(** The nested function [priority_key]. *)
Definition priority_key (fs : filesystem) (path : string) : Z * string :=
  let path_lower := Str.lower path in
  let score := 0 in
  (* Environment variables (highest) *)
  let score :=
    if any_in path_lower ["tessdata_prefix"; "tesseract_data"]
    then score - 1000 else score in
  (* System package locations *)
  let score :=
    if Str.contains path_lower "/usr/share" then score - 500 else score in
  (* User installations *)
  let score :=
    if any_in path_lower ["home"; "users"; "~"] then score - 300 else score in
  (* Count language files *)
  let score :=
    try_except
      (files ← glob_traineddata fs (Path path);
       Ok (score - Z.of_nat (length files) * 10))
      (fun _ => score) in
  (score, path_lower).

(** Python's [<] on the tuples [(score, path_lower)]. *)
Definition key_lt (k1 k2 : Z * string) : bool :=
  if k1.1 =? k2.1 then String.ltb k1.2 k2.2 else k1.1 <? k2.1.

(** The first loop of [_finalize_paths]: validate the raw candidate,
    normalise it, keep it unless it is already there. *)
Definition collect_valid (fs : filesystem) (paths : list string) : list string :=
  foldl (fun valid_paths path =>
           if _is_valid_tessdata_quick fs path then
             let normalized := normpath path in
             if bool_decide (normalized ∈ valid_paths) then valid_paths
             else valid_paths ++ [normalized]
           else valid_paths)
        [] paths.

Definition _finalize_paths (fs : filesystem) (paths : list string) : list string :=
  sorted key_lt (priority_key fs) (collect_valid fs paths).

(** ** The world and the finder object *)

(** The JSON document of the cache file.  [rec_paths] is [None] when the
    key ['paths'] is missing. *)
Record cache_record := {
  rec_paths : option (list string);
  rec_timestamp : Z;
  rec_os : string
}.

(** The file [~/.fast_tessdata_cache.json]: its modification time and its
    content, [None] when it cannot be opened or parsed. *)
Record cache_file := {
  st_mtime : Z;
  content : option cache_record
}.

Record world := {
  fs : filesystem;
  environ : gmap string string;
  cwd : string;
  clock : Z;                      (* time.time() *)
  cache : option cache_file;      (* None: the file does not exist *)
  cache_writable : bool
}.

Definition set_clock (t : Z) (w : world) : world :=
  {| fs := fs w; environ := environ w; cwd := cwd w; clock := t;
     cache := cache w; cache_writable := cache_writable w |}.

Definition set_cache (c : option cache_file) (w : world) : world :=
  {| fs := fs w; environ := environ w; cwd := cwd w; clock := clock w;
     cache := c; cache_writable := cache_writable w |}.

(** The fields of [FastTessdataFinder] that the search reads or writes. *)
Record finder := {
  timeout : Z;
  start_time : option Z;
  found_paths : gset string;
  os_type : string
}.

Definition set_found_paths (s : gset string) (self : finder) : finder :=
  {| timeout := timeout self; start_time := start_time self;
     found_paths := s; os_type := os_type self |}.

(** The attributes that [__init__] assigns; [new_finder] is the object
    once the constructor has returned. *)
Definition new_finder (timeout : Z) (os : string) : finder :=
  {| timeout := timeout; start_time := None; found_paths := ∅; os_type := os |}.

(** [Path.home()]: the home directory, [None] standing for a process for
    which it cannot be determined. *)
Definition Path_home (home : option string) : py string :=
  match home with
  | Some d => Ok d
  | None => Raise RuntimeError
  end.

(** The constructor call [FastTessdataFinder(timeout=...)]: [__init__]
    computes [Path.home() / '.fast_tessdata_cache.json'] outside any [try],
    so the call raises when [Path.home()] does. *)
Definition FastTessdataFinder (home : option string) (timeout : Z) (os : string)
  : py finder :=
  Path_home home ≫= λ _ : string, Ok (new_finder timeout os).

Definition cache_max_age : Z := 6 * 3600.

(** [_elapsed]: [time.time() - self.start_time if self.start_time else 0];
    a start time of zero is falsy. *)
Definition _elapsed (w : world) (self : finder) : Z :=
  match start_time self with
  | Some t => if t =? 0 then 0 else clock w - t
  | None => 0
  end.

Definition _is_timeout (w : world) (self : finder) : bool :=
  _elapsed w self >? timeout self.

(** ** The cache *)

Definition _load_cache (w : world) : list string :=
  match cache w with
  | None => []                                  (* not self.cache_file.exists() *)
  | Some f =>
      let age := clock w - st_mtime f in
      if age >? cache_max_age then []
      else
        match content f with
        | None => []                            (* except Exception *)
        | Some data =>
            let paths := default [] (rec_paths data) in
            let valid_paths :=
              filter (fun p => _is_valid_tessdata_quick (fs w) p = true) paths in
            match valid_paths with
            | [] => []
            | _ => valid_paths
            end
        end
  end.

Definition _save_cache (w : world) (self : finder) (paths : list string) : world :=
  if cache_writable w then
    set_cache (Some {| st_mtime := clock w;
                       content := Some {| rec_paths := Some paths;
                                          rec_timestamp := clock w;
                                          rec_os := os_type self |} |}) w
  else w.                                       (* except Exception: pass *)

(** ** The probes *)

(** A probe is called with the world and the finder; it returns paths or
    raises, and takes some time. *)
Definition method : Type := world -> finder -> py (list string) * Z.

(** [_check_environment_vars] *)
Definition _check_environment_vars (w : world) : list string :=
  foldl (fun paths var =>
           match environ w !! var with
           | Some value =>
               if String.eqb value "" then paths
               else
                 let candidates := [value; path_join value "tessdata"] in
                 match List.find (_is_valid_tessdata_quick (fs w)) candidates with
                 | Some candidate => paths ++ [abspath (cwd w) candidate]
                 | None => paths
                 end
           | None => paths
           end)
        [] ["TESSDATA_PREFIX"; "TESSERACT_DATA_PATH"; "TESSERACT_PREFIX"].

(** The probes that run the engine, a thread pool, [glob], [shutil.which]
    or the registry are behaviours of the host: what each returns and how
    long each takes is given from outside.  The duration of a probe is the
    time between the guard before it and the next reading of the clock.
    [startup_time] is the time between the reading that sets [start_time]
    and the first guard (the cache check lies in between); [path_home] is
    what [Path.home()] finds. *)
Record host := {
  path_home : option string;
  startup_time : Z;
  env_vars_time : Z;
  _check_tesseract_command : method;
  _check_common_paths_smart : method;
  _check_binary_relative_paths : method;
  _check_package_locations : method
}.

(** The list [methods] of [find_tessdata_paths]. *)
Definition methods (h : host) : list (string * method) :=
  [ ("env_vars", fun w _ => (Ok (_check_environment_vars w), env_vars_time h));
    ("tesseract_cmd", _check_tesseract_command h);
    ("common_paths", _check_common_paths_smart h);
    ("binary_relative", _check_binary_relative_paths h);
    ("package_locations", _check_package_locations h) ].

(** ** The orchestrator: [FastTessdataFinder.find_tessdata_paths] *)

(** The guard at the head of the loop body. *)
Definition stop_probing (w : world) (self : finder) : bool :=
  _is_timeout w self || (3 <=? Z.of_nat (size (found_paths self))).

(** One launched probe: its name and the state in which the guard was
    evaluated just before. *)
Definition launch : Type := string * (world * finder).

(** The [for name, method in methods] loop.  Besides the state it returns
    the log of the probes it launched. *)
Fixpoint run_methods (ms : list (string * method)) (w : world) (self : finder)
  : world * finder * list launch :=
  match ms with
  | [] => (w, self, [])
  | (name, m) :: rest =>
      if stop_probing w self then (w, self, [])            (* break *)
      else
        let '(outcome, duration) := m w self in
        let w' := set_clock (clock w + duration) w in
        let self' :=
          try_except
            (paths ← outcome;
             Ok (match paths with
                 | [] => self
                 | _ => set_found_paths (found_paths self ∪ list_to_set paths) self
                 end))
            (fun _ => self) in
        let '(w'', self'', log) := run_methods rest w' self' in
        (w'', self'', (name, (w, self)) :: log)
  end.

Record search := {
  result : list string;
  cache_hit : bool;
  launched : list launch;
  world_after : world;
  finder_after : finder
}.

Definition find_tessdata_paths (h : host) (w : world) (self : finder)
    (use_cache : bool) : search :=
  let self := {| timeout := timeout self; start_time := Some (clock w);
                 found_paths := ∅; os_type := os_type self |} in
  let cached := if use_cache then _load_cache w else [] in
  match cached with
  | _ :: _ =>
      {| result := cached; cache_hit := true; launched := [];
         world_after := w; finder_after := self |}
  | [] =>
      (* the first guard reads the clock again *)
      let w0 := set_clock (clock w + startup_time h) w in
      let '(w1, self1, log) := run_methods (methods h) w0 self in
      let result := _finalize_paths (fs w1) (elements (found_paths self1)) in
      let w2 := match result with
                | _ :: _ => if use_cache then _save_cache w1 self1 result else w1
                | [] => w1
                end in
      {| result := result; cache_hit := false; launched := log;
         world_after := w2; finder_after := self1 |}
  end.

(** [get_primary_path]: [paths[0] if paths else None] *)
Definition get_primary_path (h : host) (w : world) (self : finder) : option string :=
  head (result (find_tessdata_paths h w self true)).

(** The module-level functions [find_tessdata_paths(verbose, timeout)]
    and [get_tessdata_path(verbose)] construct a finder first. *)
Definition find_all_paths (h : host) (w : world) (os : string) (timeout : Z)
  : py (list string) :=
  FastTessdataFinder (path_home h) timeout os ≫= λ finder : finder,
  Ok (result (find_tessdata_paths h w finder true)).

Definition get_tessdata_path (h : host) (w : world) (os : string)
  : py (option string) :=
  FastTessdataFinder (path_home h) 8 os ≫= λ finder : finder,
  Ok (get_primary_path h w finder).

(** ** [validate_tessdata_path] *)

(** The values stored in the [info] dictionary.  [VSizeMb total] stands
    for [round(total / (1024 * 1024), 2)]. *)
Inductive value :=
| VStr (s : string)
| VBool (b : bool)
| VInt (n : Z)
| VList (l : list string)
| VSizeMb (total_size : Z).

Definition exn_str (e : exn) : string :=
  match e with
  | FileNotFoundError => "FileNotFoundError"
  | NotADirectoryError => "NotADirectoryError"
  | PermissionError => "PermissionError"
  | RuntimeError => "RuntimeError"
  end.

(** [sum(f.stat().st_size for f in traineddata_files)] *)
Fixpoint total_size (fs : filesystem) (p : string) (files : list string) : py Z :=
  match files with
  | [] => Ok 0
  | f :: rest =>
      sz ← stat_size fs p f;
      total ← total_size fs p rest;
      Ok (sz + total)
  end.

(** The [try] block updates [info] in place; when a call raises, the
    updates made so far stay and the handler adds ['error']. *)
Definition validate_tessdata_path (fs : filesystem) (path : string)
  : gmap string value :=
  let info : gmap string value :=
    {[ "path" := VStr path; "valid" := VBool false; "exists" := VBool false;
       "readable" := VBool false; "language_count" := VInt 0;
       "languages" := VList []; "size_mb" := VInt 0 ]} in
  let failed (info : gmap string value) (e : exn) :=
    <["error" := VStr (exn_str e)]> info in
  match exists_ fs path with
  | Raise e => failed info e
  | Ok ex =>
      let info := <["exists" := VBool ex]> info in
      if ex then
        let readable := os_access_R fs path in
        let info := <["readable" := VBool readable]> info in
        if readable then
          match glob_traineddata fs path with
          | Raise e => failed info e
          | Ok traineddata_files =>
              let n := Z.of_nat (length traineddata_files) in
              let info := <["valid" := VBool (n >? 0)]> info in
              let info := <["language_count" := VInt n]> info in
              let info := <["languages" := VList (stem <$> traineddata_files)]> info in
              match total_size fs path traineddata_files with
              | Raise e => failed info e
              | Ok total => <["size_mb" := VSizeMb total]> info
              end
          end
        else info
      else info
  end.

(** ** [TesseractPathFinder] *)

(** [get_languages_from_path]: [filename[:-12]] for every listed name
    that ends, lower-cased, with ['.traineddata'].  The call of
    [os.access] stands before the [try]; it raises ([ValueError]) only for
    a string with a NUL character, which names no path: [dirpath] ranges
    over path names, as the callers pass them after [os.path.isdir]. *)
Definition get_languages_from_path (fs : filesystem) (dirpath : string) : list string :=
  if os_access_R fs dirpath then
    try_except
      (listdir fs dirpath ≫= λ files : list string,
       Ok (Str.drop_last 12 <$>
             filter (fun filename =>
                       Str.endswith (Str.lower filename) ".traineddata" = true)
                    files))
      (fun _ => [])
  else [].

(** [for item in items: if item not in langs: langs.append(item)] *)
Definition append_new (langs items : list string) : list string :=
  foldl (fun langs item =>
           if bool_decide (item ∈ langs) then langs else langs ++ [item])
        langs items.

(** What the exhaustive finder learns from the host: the engine binaries
    it locates, [os.path.dirname(os.path.realpath(b))] for each, and the
    results of the helpers that run the engine or walk the disk. *)
Record host2 := {
  _find_tesseract_binaries : list string;
  bin_dir : string -> string;
  _get_tessdata_from_tesseract : list string;
  _comprehensive_tessdata_search : list string;
  home : string
}.

(** [_check_user_locations] *)
Definition _check_user_locations (fs : filesystem) (h : host2) : list string :=
  filter (fun location =>
            os_path_isdir fs location && _is_valid_tessdata_dir fs location = true)
         [ home h +:+ "/.local/share/tesseract/tessdata";
           home h +:+ "/.tesseract/tessdata";
           home h +:+ "/tesseract/tessdata" ].

Definition relative_paths : list string :=
  [ "../share/tesseract-ocr/tessdata"; "../share/tesseract/tessdata";
    "../../share/tesseract-ocr/tessdata"; "../../share/tesseract/tessdata";
    "../tessdata"; "tessdata" ].

(** [find_paths] *)
Definition find_paths (w : world) (h : host2) : list string :=
  (* 1. Environment variable *)
  let paths :=
    match environ w !! "TESSDATA_PREFIX" with
    | Some env_path =>
        if negb (String.eqb env_path "") && os_path_isdir (fs w) env_path
           && _is_valid_tessdata_dir (fs w) env_path
        then [env_path] else []
    | None => []
    end in
  (* 2. From all tesseract binary locations *)
  let paths :=
    foldl (fun paths tess_bin =>
             foldl (fun paths rel =>
                      let path := normpath (path_join (bin_dir h tess_bin) rel) in
                      if os_path_isdir (fs w) path
                         && _is_valid_tessdata_dir (fs w) path
                         && negb (bool_decide (path ∈ paths))
                      then paths ++ [path] else paths)
                   paths relative_paths)
          paths (_find_tesseract_binaries h) in
  (* 3. Direct from tesseract *)
  let paths := append_new paths (_get_tessdata_from_tesseract h) in
  (* 4. Comprehensive filesystem search *)
  let paths := append_new paths (_comprehensive_tessdata_search h) in
  (* 5. User-specific locations *)
  append_new paths (_check_user_locations (fs w) h).

(** [find_primary_path]: [paths[0] if paths else None] *)
Definition find_primary_path (w : world) (h : host2) : option string :=
  head (find_paths w h).

(** [get_all_languages] *)
Definition get_all_languages (w : world) (h : host2) : list string :=
  let tessdata_paths := find_paths w h in
  let langs :=
    foldl (fun langs dirpath =>
             if os_path_isfile (fs w) (dirpath +:+ "/configs/box.train")
             then append_new langs (get_languages_from_path (fs w) dirpath)
             else langs)
          [] tessdata_paths in
  (* If no languages found with box.train, try without this requirement *)
  let langs :=
    match langs with
    | [] => foldl (fun langs dirpath =>
                     append_new langs (get_languages_from_path (fs w) dirpath))
                  [] tessdata_paths
    | _ => langs
    end in
  sorted String.ltb id langs.

(** * Properties *)

(** ** Strings *)

Lemma app_cons (a : ascii) (s t : string) :
  String a s +:+ t = String a (s +:+ t).
Proof. reflexivity. Qed.

Lemma length_app (s t : string) :
  String.length (s +:+ t) = (String.length s + String.length t)%nat.
Proof. induction s as [|a s IH]; [done|]. rewrite app_cons. simpl. by rewrite IH. Qed.



Lemma take_app_length (s t : string) : Str.take (String.length s) (s +:+ t) = s.
Proof.
  induction s as [|a s IH]; [by destruct t|]. rewrite app_cons. simpl. by rewrite IH.
Qed.

Lemma eqb_true (s t : string) : String.eqb s t = true ↔ s = t.
Proof. apply String.eqb_eq. Qed.

(** [s.endswith(t)] holds exactly when [s] is some prefix followed by [t]. *)
Lemma endswith_spec (s t : string) :
  Str.endswith s t = true ↔ ∃ pre, s = pre +:+ t.
Proof.
  induction s as [|a s IH]; cbn [Str.endswith].
  - rewrite orb_false_r, eqb_true. split.
    + intros <-. by exists "".
    + intros [[|b pre] Hpre]; [done|]. by rewrite app_cons in Hpre.
  - rewrite orb_true_iff, eqb_true, IH. split.
    + intros [<-|[pre ->]]; [by exists ""|]. by exists (String a pre).
    + intros [[|b pre] Hpre]; [by left|].
      rewrite app_cons in Hpre. injection Hpre as -> ->. right. by exists pre.
Qed.



(** ** The validators (C1) *)

Lemma Path_nonempty (p : string) : p ≠ "" → Path p = p.
Proof. unfold Path. by destruct p. Qed.

Lemma valid_quick_is_listed_dir (fs : filesystem) (p : string) :
  _is_valid_tessdata_quick fs p = true →
  ∃ sz entries, fs !! Path p = Some (Dir true sz entries).
Proof.
  unfold _is_valid_tessdata_quick, is_dir, listdir. cbn zeta.
  destruct (fs !! Path p) as [[r sz|[] sz entries|]|]; simpl; try done.
  intros _. by exists sz, entries.
Qed.







(** ** The cache (C3, C4) *)

Definition fs_one : filesystem :=
  {[ "/opt/tess" := Dir true 4096 ["eng.traineddata"] ]}.

(** A cache file written long ago (the stored timestamp is 1000) whose
    modification time is recent, as after [touch] or a copy. *)
Definition stale_record : cache_record :=
  {| rec_paths := Some ["/opt/tess"]; rec_timestamp := 1000; rec_os := "linux" |}.

Definition w_touched : world :=
  {| fs := fs_one; environ := ∅; cwd := "/root"; clock := 100000;
     cache := Some {| st_mtime := 99990; content := Some stale_record |};
     cache_writable := true |}.

(** C3, as stated, fails: the timestamp stored in the record is never
    read.  Here it is more than six hours old, and the load is a hit. *)
Lemma stored_timestamp_counterexample :
  cache w_touched = Some {| st_mtime := 99990; content := Some stale_record |}
  ∧ clock w_touched - rec_timestamp stale_record > 6 * 3600
  ∧ _load_cache w_touched = ["/opt/tess"].
Proof. by vm_compute. Qed.

(** C3 (amended): the expiry age is six hours, and a cache file whose
    modification time lies more than that before the current time is a
    miss whatever it contains; the [timestamp] field stored inside the
    record is not consulted. *)
Theorem expired_cache_is_miss (w : world) (f : cache_file) :
  cache w = Some f →
  clock w - st_mtime f > cache_max_age →
  cache_max_age = 6 * 3600
  ∧ _load_cache w = []
  ∧ ∀ h self, cache_hit (find_tessdata_paths h w self true) = false.
Proof.
  intros Hf Hage.
  assert (Hload : _load_cache w = []).
  { unfold _load_cache. rewrite Hf.
    destruct (Z.gtb_spec (clock w - st_mtime f) cache_max_age); [done|lia]. }
  split_and!; [done..|].
  intros h self. unfold find_tessdata_paths. rewrite Hload.
  by destruct (run_methods _ _ _) as [[? ?] ?].
Qed.

Definition w_expired : world :=
  {| fs := fs_one; environ := ∅; cwd := "/root"; clock := 100000;
     cache := Some {| st_mtime := 70000; content := Some stale_record |};
     cache_writable := true |}.

Lemma expired_cache_is_miss_witness :
  cache_max_age = 6 * 3600
  ∧ _load_cache w_expired = []
  ∧ ∀ h self, cache_hit (find_tessdata_paths h w_expired self true) = false.
Proof.
  apply (expired_cache_is_miss w_expired
           {| st_mtime := 70000; content := Some stale_record |}).
  - reflexivity.
  - vm_compute. reflexivity.
Defined.

Lemma load_cache_fresh (w : world) (f : cache_file) (data : cache_record) :
  cache w = Some f →
  clock w - st_mtime f ≤ cache_max_age →
  content f = Some data →
  _load_cache w =
    filter (fun p => _is_valid_tessdata_quick (fs w) p = true)
           (default [] (rec_paths data)).
Proof.
  intros Hf Hage Hdata. unfold _load_cache. rewrite Hf, Hdata.
  destruct (Z.gtb_spec (clock w - st_mtime f) cache_max_age); [lia|].
  by destruct (filter _ _).
Qed.

(** C4: loading a cache file that is not expired puts every stored path
    through the validator and returns the survivors, in order; a stored
    path that no longer exists (as pathlib reads it) is not among them;
    and when none survives the search does not take the cached branch but
    runs the probes. *)
Theorem load_cache_revalidates (w : world) (f : cache_file) (data : cache_record) :
  cache w = Some f →
  clock w - st_mtime f ≤ cache_max_age →
  content f = Some data →
  let stored := default [] (rec_paths data) in
  let survivors := filter (fun p => _is_valid_tessdata_quick (fs w) p = true) stored in
  _load_cache w = survivors
  ∧ (∀ p, p ∈ _load_cache w ↔ p ∈ stored ∧ _is_valid_tessdata_quick (fs w) p = true)
  ∧ (∀ p, fs w !! Path p = None → p ∉ _load_cache w)
  ∧ (∀ p, p ≠ "" → fs w !! p = None → p ∉ _load_cache w)
  ∧ (survivors = [] →
     ∀ h self,
       let s := find_tessdata_paths h w self true in
       cache_hit s = false
       ∧ launched s =
           (run_methods (methods h) (set_clock (clock w + startup_time h) w)
              {| timeout := timeout self; start_time := Some (clock w);
                 found_paths := ∅; os_type := os_type self |}).2).
Proof.
  intros Hf Hage Hdata stored survivors.
  assert (Hload : _load_cache w = survivors) by by eapply load_cache_fresh.
  split_and!.
  - done.
  - intros p. rewrite Hload. unfold survivors. by rewrite list_elem_of_filter, (comm and).
  - intros p Hp. rewrite Hload. unfold survivors. rewrite list_elem_of_filter.
    intros [Hv _]. apply valid_quick_is_listed_dir in Hv as (? & ? & ?). congruence.
  - intros p Hne Hp. rewrite Hload. unfold survivors. rewrite list_elem_of_filter.
    intros [Hv _]. apply valid_quick_is_listed_dir in Hv as (? & ? & Hnode).
    rewrite Path_nonempty in Hnode by done. congruence.
  - intros Hnone h self. unfold find_tessdata_paths. rewrite Hload, Hnone.
    by destruct (run_methods _ _ _) as [[? ?] ?].
Qed.

(** A fresh cache file listing a directory that has since disappeared. *)
Definition w_gone : world :=
  {| fs := fs_one; environ := ∅; cwd := "/root"; clock := 100000;
     cache := Some {| st_mtime := 99000;
                      content := Some {| rec_paths := Some ["/old/tessdata"];
                                         rec_timestamp := 99000;
                                         rec_os := "linux" |} |};
     cache_writable := true |}.

Lemma load_cache_revalidates_witness :
  _load_cache w_gone = []
  ∧ (∀ p, p ∈ _load_cache w_gone ↔
          p ∈ ["/old/tessdata"] ∧ _is_valid_tessdata_quick (fs w_gone) p = true)
  ∧ (∀ p, fs w_gone !! Path p = None → p ∉ _load_cache w_gone)
  ∧ (∀ p, p ≠ "" → fs w_gone !! p = None → p ∉ _load_cache w_gone)
  ∧ (@nil string = [] →
     ∀ h self,
       let s := find_tessdata_paths h w_gone self true in
       cache_hit s = false
       ∧ launched s =
           (run_methods (methods h) (set_clock (clock w_gone + startup_time h) w_gone)
              {| timeout := timeout self; start_time := Some (clock w_gone);
                 found_paths := ∅; os_type := os_type self |}).2).
Proof.
  apply (load_cache_revalidates w_gone
           {| st_mtime := 99000;
              content := Some {| rec_paths := Some ["/old/tessdata"];
                                 rec_timestamp := 99000; rec_os := "linux" |} |}
           {| rec_paths := Some ["/old/tessdata"];
              rec_timestamp := 99000; rec_os := "linux" |}).
  - reflexivity.
  - vm_compute. discriminate.
  - reflexivity.
Defined.

(** ** The probing loop (C5) *)

(** What [run_methods] does with the value a probe returns. *)
Definition merge_outcome (self : finder) (outcome : py (list string)) : finder :=
  try_except
    (paths ← outcome;
     Ok (match paths with
         | [] => self
         | _ => set_found_paths (found_paths self ∪ list_to_set paths) self
         end))
    (fun _ => self).

Lemma run_methods_step (name : string) (m : method) (rest : list (string * method))
    (w : world) (self : finder) :
  stop_probing w self = false →
  run_methods ((name, m) :: rest) w self =
    let w1 := set_clock (clock w + (m w self).2) w in
    let self1 := merge_outcome self (m w self).1 in
    ((run_methods rest w1 self1).1,
     (name, (w, self)) :: (run_methods rest w1 self1).2).
Proof.
  intros Hgo. simpl. rewrite Hgo. unfold merge_outcome.
  destruct (m w self) as [outcome duration]. simpl.
  by destruct (run_methods rest _ _) as [[? ?] ?].
Qed.

(** The log of launched probes follows the list of methods, every launch
    was preceded by a guard that did not fire, and the loop ends early
    only in a state in which the guard fires. *)
Lemma run_methods_log (ms : list (string * method)) (w : world) (self : finder) :
  (run_methods ms w self).2.*1 `prefix_of` ms.*1
  ∧ Forall (λ l : launch, stop_probing l.2.1 l.2.2 = false) (run_methods ms w self).2
  ∧ ((length (run_methods ms w self).2 < length ms)%nat →
     stop_probing (run_methods ms w self).1.1 (run_methods ms w self).1.2 = true).
Proof.
  revert w self. induction ms as [|[name m] rest IH]; intros w self.
  - simpl. split_and!; [done|done|lia].
  - destruct (stop_probing w self) eqn:Hstop.
    + simpl. rewrite Hstop. simpl. split_and!; [apply prefix_nil|done|done].
    + rewrite run_methods_step by done. cbn zeta.
      set (w1 := set_clock _ w). set (self1 := merge_outcome self _).
      destruct (IH w1 self1) as (Hpre & Hall & Hend).
      destruct (run_methods rest w1 self1) as [[w2 self2] log]. simpl in *.
      split_and!.
      * by apply prefix_cons.
      * by constructor.
      * intros Hlen. apply Hend. lia.
Qed.

Lemma stop_probing_spec (w : world) (self : finder) :
  stop_probing w self = true ↔
  _elapsed w self > timeout self ∨ (3 ≤ size (found_paths self))%nat.
Proof.
  unfold stop_probing, _is_timeout. rewrite orb_true_iff, Z.leb_le.
  destruct (Z.gtb_spec (_elapsed w self) (timeout self)); split; intros [?|?];
    auto; try lia; try done.
Qed.

Lemma stop_probing_save_cache (w : world) (self self' : finder) (paths : list string) :
  stop_probing (_save_cache w self paths) self' = stop_probing w self'.
Proof. unfold _save_cache. by destruct (cache_writable w). Qed.

(** The names of [methods], in the order of the list. *)
Definition probe_order : list string :=
  ["env_vars"; "tesseract_cmd"; "common_paths"; "binary_relative";
   "package_locations"].

(** The state after a probe has run from the state [st]: the clock has
    advanced by the probe's duration and the paths it returned, if any,
    have been added to [found_paths]. *)
Definition after_probe (m : method) (st : world * finder) : world * finder :=
  (set_clock (clock st.1 + (m st.1 st.2).2) st.1,
   merge_outcome st.2 (m st.1 st.2).1).

(** The states in which the guard would be evaluated if no guard ever
    fired: the initial state, then the state after each probe in turn. *)
Fixpoint guard_states (ms : list (string * method)) (st : world * finder)
  : list (world * finder) :=
  match ms with
  | [] => [st]
  | (_, m) :: rest => st :: guard_states rest (after_probe m st)
  end.

Lemma run_methods_states (ms : list (string * method)) (w : world) (self : finder) :
  (run_methods ms w self).2.*2 `prefix_of` guard_states ms (w, self)
  ∧ guard_states ms (w, self) !! length (run_methods ms w self).2
    = Some (run_methods ms w self).1.
Proof.
  revert w self. induction ms as [|[name m] rest IH]; intros w self.
  - simpl. split; [apply prefix_nil|done].
  - destruct (stop_probing w self) eqn:Hstop.
    + simpl. rewrite Hstop. simpl. split; [apply prefix_nil|done].
    + rewrite run_methods_step by done. cbn zeta.
      destruct (IH (set_clock (clock w + (m w self).2) w)
                   (merge_outcome self (m w self).1)) as [Hpre Hlast].
      cbn [guard_states fmap list_fmap snd fst length lookup list_lookup].
      split; [by apply prefix_cons|exact Hlast].
Qed.

Lemma merge_outcome_fields (self : finder) (outcome : py (list string)) :
  timeout (merge_outcome self outcome) = timeout self
  ∧ start_time (merge_outcome self outcome) = start_time self.
Proof. unfold merge_outcome. by destruct outcome as [[|? ?]|]. Qed.

Lemma guard_states_fields (ms : list (string * method)) (st st' : world * finder) :
  st' ∈ guard_states ms st →
  timeout st'.2 = timeout st.2 ∧ start_time st'.2 = start_time st.2.
Proof.
  revert st. induction ms as [|[name m] rest IH]; intros st; simpl.
  - by intros ->%list_elem_of_singleton.
  - intros [->|Hin]%elem_of_cons; [done|].
    destruct (IH _ Hin) as [-> ->]. apply merge_outcome_fields.
Qed.

(** Once a search has begun at a clock reading other than zero, the
    elapsed time is the clock minus that reading. *)
Lemma elapsed_since_start (w' : world) (self' : finder) (t0 : Z) :
  start_time self' = Some t0 → t0 ≠ 0 → _elapsed w' self' = clock w' - t0.
Proof.
  intros Hstart Ht0. unfold _elapsed. rewrite Hstart.
  by destruct (Z.eqb_spec t0 0).
Qed.

(** C5: on a cache miss the probes are launched in the order environment,
    binary invocation, common paths, binary-relative, package locations.
    The guard is evaluated before each launch.  Before every probe that
    was launched, the time on the clock since the search began did not
    exceed the budget and fewer than three distinct candidates had been
    found; when fewer than five probes were launched, the search stopped
    in a state in which the time since the search began exceeds the budget
    or three candidates have been found, and nothing more was launched.
    The states in which the guard is evaluated are the state at the first
    guard -- the clock of the start plus the start-up time, no candidate
    yet -- advanced by the probes launched so far.  (The search begins at
    a clock reading other than zero: [_elapsed] takes a start time of zero
    for no start time.) *)
Theorem probes_in_order_until_stop (h : host) (w : world) (self : finder)
    (use_cache : bool) :
  let s := find_tessdata_paths h w self use_cache in
  let first_guard :=
    (set_clock (clock w + startup_time h) w,
     {| timeout := timeout self; start_time := Some (clock w);
        found_paths := ∅; os_type := os_type self |}) in
  cache_hit s = false →
  clock w ≠ 0 →
  (launched s).*1 `prefix_of` probe_order
  ∧ (∀ name w' self', (name, (w', self')) ∈ launched s →
       clock w' - clock w ≤ timeout self
       ∧ (size (found_paths self') < 3)%nat
       ∧ stop_probing w' self' = false)
  ∧ ((length (launched s) < 5)%nat →
       (clock (world_after s) - clock w > timeout self
        ∨ (3 ≤ size (found_paths (finder_after s)))%nat)
       ∧ stop_probing (world_after s) (finder_after s) = true)
  ∧ (launched s).*2 `prefix_of` guard_states (methods h) first_guard
  ∧ (∃ w1, guard_states (methods h) first_guard !! length (launched s)
             = Some (w1, finder_after s)
           ∧ clock (world_after s) = clock w1).
Proof.
  intros s first_guard Hmiss Hclock. subst s. unfold find_tessdata_paths in *.
  destruct (if use_cache then _load_cache w else []) eqn:Hcached; [|done].
  set (self0 := {| timeout := timeout self; start_time := Some (clock w);
                   found_paths := ∅; os_type := os_type self |}) in *.
  set (w0 := set_clock (clock w + startup_time h) w) in *.
  destruct (run_methods_log (methods h) w0 self0) as (Hpre & Hall & Hend).
  destruct (run_methods_states (methods h) w0 self0) as (Hstates & Hlast).
  fold first_guard in Hstates, Hlast.
  assert (Hguard : ∀ w' self', (w', self') ∈ guard_states (methods h) first_guard →
            (stop_probing w' self' = true ↔
             clock w' - clock w > timeout self
             ∨ (3 ≤ size (found_paths self'))%nat)).
  { intros w' self' [Htimeout Hstart]%guard_states_fields. simpl in *.
    rewrite stop_probing_spec, Htimeout.
    by rewrite (elapsed_since_start w' self' (clock w)). }
  destruct (run_methods (methods h) w0 self0) as [[w1 self1] log]. simpl in *.
  assert (Hfinal : (w1, self1) ∈ guard_states (methods h) first_guard)
    by by eapply list_elem_of_lookup_2.
  assert (Hclock1 : ∀ paths,
            clock match _finalize_paths (fs w1) paths with
                  | [] => w1
                  | _ :: _ => if use_cache
                              then _save_cache w1 self1 (_finalize_paths (fs w1) paths)
                              else w1
                  end = clock w1).
  { intros paths. destruct (_finalize_paths _ _); [done|].
    destruct use_cache; [|done]. unfold _save_cache.
    by destruct (cache_writable w1). }
  split_and!.
  - exact Hpre.
  - intros name w' self' Hin.
    rewrite Forall_forall in Hall. pose proof (Hall _ Hin) as Hgo. simpl in Hgo.
    assert (Hst : (w', self') ∈ guard_states (methods h) first_guard).
    { eapply elem_of_prefix; [|exact Hstates].
      apply list_elem_of_fmap. by exists (name, (w', self')). }
    pose proof (Hguard _ _ Hst) as Hiff.
    split_and!; [| |done].
    + destruct (Z.le_gt_cases (clock w' - clock w) (timeout self)); [done|].
      assert (stop_probing w' self' = true) by (apply Hiff; left; lia).
      congruence.
    + destruct (Nat.lt_ge_cases (size (found_paths self')) 3); [done|].
      assert (stop_probing w' self' = true) by (apply Hiff; by right).
      congruence.
  - intros Hlen. specialize (Hend Hlen).
    split.
    + rewrite Hclock1. by apply (Hguard w1 self1).
    + destruct (_finalize_paths _ _); [|destruct use_cache];
        rewrite ?stop_probing_save_cache; done.
  - exact Hstates.
  - exists w1. by rewrite Hclock1.
Qed.

(** A search in which the common-paths probe returns three directories:
    the two remaining probes are not launched. *)
Definition fs_three : filesystem :=
  {[ "/usr/share/tessdata" := Dir true 4096 ["eng.traineddata"];
     "/usr/share/tesseract-ocr/tessdata" := Dir true 4096 ["eng.traineddata"];
     "/usr/local/share/tesseract-ocr/tessdata" := Dir true 4096 ["fra.traineddata"] ]}.

Definition w_three : world :=
  {| fs := fs_three; environ := ∅; cwd := "/root"; clock := 5000;
     cache := None; cache_writable := false |}.

Definition quiet : method := fun _ _ => (Ok [], 1).

Definition h_three : host :=
  {| path_home := Some "/root";
     startup_time := 1;
     env_vars_time := 0;
     _check_tesseract_command := fun _ _ => (Raise FileNotFoundError, 1);
     _check_common_paths_smart := fun _ _ =>
       (Ok ["/usr/share/tessdata"; "/usr/share/tesseract-ocr/tessdata";
            "/usr/local/share/tesseract-ocr/tessdata"], 2);
     _check_binary_relative_paths := quiet;
     _check_package_locations := quiet |}.

(** A host on which running the engine takes ten seconds and finds
    nothing: with a budget of eight seconds the search stops there. *)
Definition h_slow : host :=
  {| path_home := Some "/root";
     startup_time := 1;
     env_vars_time := 0;
     _check_tesseract_command := fun _ _ => (Ok [], 10);
     _check_common_paths_smart := fun _ _ =>
       (Ok ["/usr/share/tessdata"; "/usr/share/tesseract-ocr/tessdata";
            "/usr/local/share/tesseract-ocr/tessdata"], 2);
     _check_binary_relative_paths := quiet;
     _check_package_locations := quiet |}.

Lemma probes_in_order_until_stop_witness :
  (* stopped by the number of candidates *)
  (let s := find_tessdata_paths h_three w_three (new_finder 8 "linux") true in
   (launched s).*1 = ["env_vars"; "tesseract_cmd"; "common_paths"]
   ∧ clock (world_after s) - clock w_three = 4
   ∧ size (found_paths (finder_after s)) = 3%nat
   ∧ (∀ name w' self', (name, (w', self')) ∈ launched s →
        clock w' - clock w_three ≤ 8 ∧ (size (found_paths self') < 3)%nat
        ∧ stop_probing w' self' = false)
   ∧ ((length (launched s) < 5)%nat →
        (clock (world_after s) - clock w_three > 8
         ∨ (3 ≤ size (found_paths (finder_after s)))%nat)
        ∧ stop_probing (world_after s) (finder_after s) = true))
  (* stopped by the clock *)
  ∧ (let s := find_tessdata_paths h_slow w_three (new_finder 8 "linux") true in
     (launched s).*1 = ["env_vars"; "tesseract_cmd"]
     ∧ clock (world_after s) - clock w_three = 11
     ∧ size (found_paths (finder_after s)) = 0%nat
     ∧ (∀ name w' self', (name, (w', self')) ∈ launched s →
          clock w' - clock w_three ≤ 8 ∧ (size (found_paths self') < 3)%nat
          ∧ stop_probing w' self' = false)
     ∧ ((length (launched s) < 5)%nat →
          (clock (world_after s) - clock w_three > 8
           ∨ (3 ≤ size (found_paths (finder_after s)))%nat)
          ∧ stop_probing (world_after s) (finder_after s) = true)).
Proof.
  split.
  - destruct (probes_in_order_until_stop h_three w_three (new_finder 8 "linux") true)
      as (_ & Hbefore & Hstop & _); [by vm_compute|by vm_compute|].
    split_and!; [by vm_compute|by vm_compute|by vm_compute|exact Hbefore|exact Hstop].
  - destruct (probes_in_order_until_stop h_slow w_three (new_finder 8 "linux") true)
      as (_ & Hbefore & Hstop & _); [by vm_compute|by vm_compute|].
    split_and!; [by vm_compute|by vm_compute|by vm_compute|exact Hbefore|exact Hstop].
Defined.

(** ** [sorted] *)

Section SortedFacts.
Context {A K : Type} (lt : K -> K -> bool) (key : A -> K).

(** [x] may stand before [y]: the key of [y] is not below that of [x]. *)
Definition not_after (x y : A) : Prop := lt (key y) (key x) = false.

Hypothesis lt_asym : ∀ a b, lt a b = true → lt b a = false.
Hypothesis ge_trans : ∀ a b c, lt b a = false → lt c b = false → lt c a = false.

Lemma insert_sorted_perm (x : A) (l : list A) :
  insert_sorted lt key x l ≡ₚ x :: l.
Proof.
  induction l as [|y l IH]; simpl; [done|].
  destruct (lt (key y) (key x)); [|done].
  by rewrite IH, Permutation_swap.
Qed.

Lemma sorted_perm (l : list A) : sorted lt key l ≡ₚ l.
Proof.
  induction l as [|x l IH]; simpl; [done|].
  by rewrite insert_sorted_perm, IH.
Qed.

(** The sort is stable: elements that do not precede one another keep
    the order in which they were given. *)
Lemma insert_sorted_filter (P : A → Prop) `{!∀ x, Decision (P x)} (x : A) (l : list A) :
  (∀ y, P x → P y → lt (key y) (key x) = false) →
  filter P (insert_sorted lt key x l) = filter P (x :: l).
Proof.
  intros Htie. induction l as [|y l IH]; simpl; [done|].
  destruct (lt (key y) (key x)) eqn:E; [|done].
  rewrite (filter_cons _ y), IH, !filter_cons.
  destruct (decide (P y)) as [Hy|Hy]; [|done].
  destruct (decide (P x)) as [Hx|Hx]; [|done].
  rewrite (Htie y Hx Hy) in E. done.
Qed.

Lemma sorted_stable (P : A → Prop) `{!∀ x, Decision (P x)} (l : list A) :
  (∀ x y, P x → P y → lt (key y) (key x) = false) →
  filter P (sorted lt key l) = filter P l.
Proof.
  intros Htie. induction l as [|x l IH]; simpl; [done|].
  rewrite insert_sorted_filter by (intros y; apply Htie).
  by rewrite !filter_cons, IH.
Qed.

Lemma insert_sorted_sorted (x : A) (l : list A) :
  StronglySorted not_after l → StronglySorted not_after (insert_sorted lt key x l).
Proof.
  induction 1 as [|y l Hl IH Hy]; simpl.
  - by repeat constructor.
  - destruct (lt (key y) (key x)) eqn:E.
    + constructor; [done|].
      rewrite insert_sorted_perm. constructor; [|done].
      by apply lt_asym.
    + constructor; [by constructor|].
      constructor; [done|].
      eapply Forall_impl; [exact Hy|]. intros z Hz. by eapply ge_trans.
Qed.

Lemma sorted_sorted (l : list A) : StronglySorted not_after (sorted lt key l).
Proof.
  induction l as [|x l IH]; simpl; [constructor|].
  by apply insert_sorted_sorted.
Qed.
End SortedFacts.

(** ** The order on ranking keys *)

Lemma ltb_false_le (s t : string) : String.ltb t s = false ↔ String.le s t.
Proof.
  unfold String.le, String.ltb, String.leb.
  rewrite (String.compare_antisym s t).
  by destruct (String.compare t s).
Qed.

Lemma ltb_asym (s t : string) : String.ltb s t = true → String.ltb t s = false.
Proof.
  unfold String.ltb. rewrite (String.compare_antisym t s).
  by destruct (String.compare s t).
Qed.

Lemma ltb_ge_trans (a b c : string) :
  String.ltb b a = false → String.ltb c b = false → String.ltb c a = false.
Proof. rewrite !ltb_false_le. intros. by etrans. Qed.

(** Ascending score; for equal scores, ascending lower-cased path. *)
Definition key_le (k1 k2 : Z * string) : Prop :=
  k1.1 < k2.1 ∨ (k1.1 = k2.1 ∧ String.le k1.2 k2.2).

Lemma key_lt_false (k1 k2 : Z * string) : key_lt k2 k1 = false ↔ key_le k1 k2.
Proof.
  unfold key_lt, key_le.
  destruct (Z.eqb_spec k2.1 k1.1) as [Heq|Hne].
  - rewrite ltb_false_le. split; [auto|]. intros [?|[_ ?]]; [lia|done].
  - rewrite Z.ltb_ge. split; [intros; left; lia|]. intros [?|[? _]]; lia.
Qed.

Lemma key_lt_asym (a b : Z * string) : key_lt a b = true → key_lt b a = false.
Proof.
  unfold key_lt. rewrite (Z.eqb_sym b.1 a.1).
  destruct (Z.eqb_spec a.1 b.1); [apply ltb_asym|].
  rewrite Z.ltb_lt, Z.ltb_ge. lia.
Qed.

Lemma key_lt_ge_trans (a b c : Z * string) :
  key_lt b a = false → key_lt c b = false → key_lt c a = false.
Proof.
  rewrite !key_lt_false. unfold key_le.
  intros [?|[? ?]] [?|[? ?]]; try (left; lia).
  right. split; [lia|]. by etrans.
Qed.

Lemma key_le_antisym (a b : Z * string) : key_le a b → key_le b a → a = b.
Proof.
  destruct a as [sa pa], b as [sb pb]. unfold key_le. simpl.
  intros [?|[? ?]] [?|[? ?]]; try lia.
  f_equal; [done|]. by apply (anti_symm String.le).
Qed.

(** ** The first loop of the ranker *)

Lemma collect_valid_snoc (fs : filesystem) (paths : list string) (p : string) :
  collect_valid fs (paths ++ [p]) =
    if _is_valid_tessdata_quick fs p then
      if bool_decide (normpath p ∈ collect_valid fs paths) then collect_valid fs paths
      else collect_valid fs paths ++ [normpath p]
    else collect_valid fs paths.
Proof. unfold collect_valid. by rewrite foldl_app. Qed.

Lemma collect_valid_NoDup (fs : filesystem) (paths : list string) :
  NoDup (collect_valid fs paths).
Proof.
  induction paths as [|p paths IH] using rev_ind; [constructor|].
  rewrite collect_valid_snoc.
  destruct (_is_valid_tessdata_quick fs p); [|done].
  case_bool_decide as Hin; [done|].
  apply NoDup_app. split_and!; [done| |apply NoDup_singleton].
  intros x Hx ->%list_elem_of_singleton. done.
Qed.

Lemma collect_valid_elem_of (fs : filesystem) (paths : list string) (x : string) :
  x ∈ collect_valid fs paths ↔
  ∃ p, p ∈ paths ∧ _is_valid_tessdata_quick fs p = true ∧ x = normpath p.
Proof.
  induction paths as [|p paths IH] using rev_ind.
  { split; [by intros ?%elem_of_nil|by intros (? & ?%elem_of_nil & _)]. }
  rewrite collect_valid_snoc.
  assert (Hold : (∃ q, q ∈ paths ∧ _is_valid_tessdata_quick fs q = true ∧ x = normpath q)
                 → ∃ q, q ∈ paths ++ [p] ∧ _is_valid_tessdata_quick fs q = true
                        ∧ x = normpath q).
  { intros (q & ? & ? & ?). exists q. by rewrite elem_of_app; auto. }
  destruct (_is_valid_tessdata_quick fs p) eqn:Hp.
  - case_bool_decide as Hin.
    + rewrite IH. split; [done|].
      intros (q & [Hq| ->%list_elem_of_singleton]%elem_of_app & Hv & ->); [by eauto|].
      by apply IH.
    + rewrite elem_of_app, list_elem_of_singleton, IH. split.
      * intros [?| ->]; [by auto|]. exists p. by rewrite elem_of_app, list_elem_of_singleton; auto.
      * intros (q & [Hq| ->%list_elem_of_singleton]%elem_of_app & Hv & ->); [by eauto|by right].
  - rewrite IH. split; [done|].
    intros (q & [Hq| ->%list_elem_of_singleton]%elem_of_app & Hv & ->); [by eauto|congruence].
Qed.

Lemma finalize_paths_perm (fs : filesystem) (paths : list string) :
  _finalize_paths fs paths ≡ₚ collect_valid fs paths.
Proof. apply sorted_perm. Qed.

(** ** The ranker: deduplication and validation (C7) *)

(** The candidates that reach the ranker are in normal form: every probe
    returns [os.path.abspath] or [Path.resolve] output, or an absolute
    literal, and [find_tessdata_paths] is the only caller.  A candidate
    that is not in normal form would be validated as it is written and
    returned normalised, and the two can name different places: here
    [/opt/link] is a symbolic link to [/srv/tess/bin], so the kernel
    resolves [/opt/link/../tessdata] to [/srv/tess/tessdata], and there is
    no [/opt/tessdata]. *)
Definition fs_symlink : filesystem :=
  {[ "/srv/tess/tessdata" := Dir true 4096 ["eng.traineddata"];
     "/opt/link/../tessdata" := Dir true 4096 ["eng.traineddata"] ]}.

Lemma finalize_raw_candidate_remark :
  normpath "/opt/link/../tessdata" ≠ "/opt/link/../tessdata"
  ∧ _is_valid_tessdata_quick fs_symlink "/opt/link/../tessdata" = true
  ∧ _finalize_paths fs_symlink ["/opt/link/../tessdata"] = ["/opt/tessdata"]
  ∧ _is_valid_tessdata_quick fs_symlink "/opt/tessdata" = false.
Proof. by vm_compute. Qed.






(** ** The ranker: order and determinism (C6) *)

(** [t] occurs in [s]: Python's [t in s]. *)
Definition occurs_in (t s : string) : Prop :=
  ∃ pre post, s = pre +:+ t +:+ post.

(** [a] is the boost that the lower-cased path [s] earns from a group of
    markers: [amount] when one of them occurs in [s], zero otherwise. *)
Definition boost (amount : Z) (markers : list string) (s : string) (a : Z) : Prop :=
  (a = amount ∧ ∃ m, m ∈ markers ∧ occurs_in m s)
  ∨ (a = 0 ∧ ∀ m, m ∈ markers → ¬ occurs_in m s).

Lemma prefix_spec (t s : string) :
  String.prefix t s = true ↔ ∃ post, s = t +:+ post.
Proof.
  revert s. induction t as [|a t IH]; intros s.
  - destruct s; simpl; (split; [intros _; by eexists|done]).
  - destruct s as [|b s]; simpl.
    + split; [done|]. by intros [post ?].
    + destruct (ascii_dec a b) as [->|Hne].
      * rewrite IH. split; intros [post Hpost]; exists post.
        -- by rewrite Hpost.
        -- by injection Hpost.
      * split; [done|]. intros [post Hpost]. by injection Hpost.
Qed.

Lemma contains_spec (s t : string) :
  Str.contains s t = true ↔ occurs_in t s.
Proof.
  unfold occurs_in. induction s as [|c s IH]; cbn [Str.contains].
  - rewrite orb_false_r, prefix_spec. split.
    + intros [post Hpost]. by exists "", post.
    + intros (pre & post & Heq). destruct pre; [by exists post|done].
  - rewrite orb_true_iff, IH, prefix_spec. split.
    + intros [[post Hpost]|(pre & post & Hpost)].
      * by exists "", post.
      * exists (String c pre), post. simpl. by rewrite Hpost.
    + intros (pre & post & Heq). destruct pre as [|c' pre].
      * left. by exists post.
      * right. exists pre, post. simpl in Heq. by injection Heq.
Qed.

Lemma any_in_spec (s : string) (markers : list string) :
  any_in s markers = true ↔ ∃ m, m ∈ markers ∧ occurs_in m s.
Proof.
  unfold any_in. rewrite existsb_exists.
  split; intros (m & Hm & Hin); exists m.
  - by rewrite list_elem_of_In, <-contains_spec.
  - by rewrite <-list_elem_of_In, contains_spec.
Qed.

Lemma any_in_boost (amount : Z) (markers : list string) (s : string) :
  boost amount markers s (if any_in s markers then amount else 0).
Proof.
  destruct (any_in s markers) eqn:Hany.
  - left. split; [done|]. by apply any_in_spec.
  - right. split; [done|]. intros m Hm Hocc.
    assert (any_in s markers = true) by (apply any_in_spec; eauto).
    congruence.
Qed.

Definition marker_boost (path : string) : Z :=
  if any_in (Str.lower path) ["tessdata_prefix"; "tesseract_data"] then 1000 else 0.

Definition system_boost (path : string) : Z :=
  if Str.contains (Str.lower path) "/usr/share" then 500 else 0.

Definition user_boost (path : string) : Z :=
  if any_in (Str.lower path) ["home"; "users"; "~"] then 300 else 0.

(** The number of entries of the directory that [*.traineddata] matches;
    zero when the pattern cannot be expanded. *)
Definition lang_count (fs : filesystem) (path : string) : Z :=
  match glob_traineddata fs (Path path) with
  | Ok files => Z.of_nat (length files)
  | Raise _ => 0
  end.

Lemma priority_key_score (fs : filesystem) (path : string) :
  priority_key fs path =
    (- marker_boost path - system_boost path - user_boost path
     - 10 * lang_count fs path, Str.lower path).
Proof.
  unfold priority_key, marker_boost, system_boost, user_boost, lang_count.
  destruct (any_in _ ["tessdata_prefix"; _]), (Str.contains _ _), (any_in _ _),
    (glob_traineddata fs (Path path)); simpl; f_equal; lia.
Qed.

Lemma system_boost_any (path : string) :
  system_boost path = if any_in (Str.lower path) ["/usr/share"] then 500 else 0.
Proof. unfold system_boost, any_in. simpl. by rewrite orb_false_r. Qed.

Lemma lang_count_dir (fs : filesystem) (path : string) sz entries :
  fs !! Path path = Some (Dir true sz entries) →
  lang_count fs path =
    Z.of_nat (length (filter (λ f, Str.endswith f ".traineddata" = true) entries)).
Proof.
  intros Hdir. unfold lang_count, glob_traineddata, is_dir, listdir.
  by rewrite Hdir.
Qed.

Lemma lang_count_other (fs : filesystem) (path : string) :
  (∀ sz entries, fs !! Path path ≠ Some (Dir true sz entries)) →
  lang_count fs path = 0.
Proof.
  intros Hother. unfold lang_count, glob_traineddata, is_dir, listdir.
  destruct (fs !! Path path) as [[r sz|[] sz entries|]|] eqn:Hnode; try done.
  by destruct (Hother sz entries).
Qed.

(** [p] is ranked no later than [q]. *)
Definition ranked_before (fs : filesystem) (p q : string) : Prop :=
  key_le (priority_key fs p) (priority_key fs q).

Lemma StronglySorted_weaken {A} (R S : relation A) (l : list A) :
  (∀ x y, R x y → S x y) → StronglySorted R l → StronglySorted S l.
Proof.
  intros HRS. induction 1 as [|x l Hl IH Hx]; constructor; [done|].
  eapply Forall_impl; [exact Hx|]. auto.
Qed.

Lemma finalize_paths_sorted (fs : filesystem) (paths : list string) :
  StronglySorted (ranked_before fs) (_finalize_paths fs paths).
Proof.
  eapply StronglySorted_weaken;
    [|apply (sorted_sorted key_lt (priority_key fs) key_lt_asym key_lt_ge_trans)].
  intros p q. unfold not_after, ranked_before. by rewrite key_lt_false.
Qed.

(** The order of the result does not depend on the order in which the
    candidates are enumerated, provided no two validated candidates have
    the same key. *)
Lemma finalize_paths_order_independent (fs : filesystem) (paths paths' : list string) :
  (∀ p, p ∈ paths' ↔ p ∈ paths) →
  (∀ x y, x ∈ collect_valid fs paths → y ∈ collect_valid fs paths →
          priority_key fs x = priority_key fs y → x = y) →
  _finalize_paths fs paths' = _finalize_paths fs paths.
Proof.
  intros Hsame Hinj.
  assert (Hperm : _finalize_paths fs paths' ≡ₚ _finalize_paths fs paths).
  { rewrite !finalize_paths_perm.
    apply NoDup_Permutation; [apply collect_valid_NoDup..|].
    intros x. rewrite !collect_valid_elem_of. by setoid_rewrite Hsame. }
  apply (StronglySorted_unique_strong (ranked_before fs));
    [|apply finalize_paths_sorted..|done].
  intros x y Hx Hy Hxy Hyx.
  rewrite Hperm in Hx. rewrite finalize_paths_perm in Hx, Hy.
  apply Hinj; [done..|]. by apply key_le_antisym.
Qed.

(** Candidates with the same key come out in the order in which the
    first loop collected them. *)
Lemma finalize_paths_stable (fs : filesystem) (paths : list string) (k : Z * string) :
  filter (λ p, priority_key fs p = k) (_finalize_paths fs paths)
  = filter (λ p, priority_key fs p = k) (collect_valid fs paths).
Proof.
  apply (sorted_stable key_lt (priority_key fs)).
  intros x y Hx Hy. rewrite Hx, Hy.
  destruct (key_lt k k) eqn:E; [|done].
  by rewrite (key_lt_asym _ _ E) in E.
Qed.

(** Two directories whose names differ in letter case only, with one data
    file each. *)
Definition fs_twins : filesystem :=
  {[ "/opt/tess" := Dir true 4096 ["eng.traineddata"];
     "/opt/TESS" := Dir true 4096 ["eng.traineddata"] ]}.

(** C6, as stated, fails in its last part: the same set of candidates,
    enumerated in two orders, comes out in two orders.  The two paths have
    the same score and the same lower-cased text, and the sort keeps tied
    candidates in the order in which it received them. *)
Lemma ranker_tie_counterexample :
  (∀ p, p ∈ ["/opt/tess"; "/opt/TESS"] ↔ p ∈ ["/opt/TESS"; "/opt/tess"])
  ∧ priority_key fs_twins "/opt/tess" = priority_key fs_twins "/opt/TESS"
  ∧ _finalize_paths fs_twins ["/opt/tess"; "/opt/TESS"] = ["/opt/tess"; "/opt/TESS"]
  ∧ _finalize_paths fs_twins ["/opt/TESS"; "/opt/tess"] = ["/opt/TESS"; "/opt/tess"].
Proof.
  split; [|by vm_compute].
  intros p. rewrite !elem_of_cons. tauto.
Qed.

(** C6 (amended): the result of the ranker is the validated, normalised
    candidates arranged by ascending key [(score, lower-cased path)]:
    ascending score, and the lower-cased path decides between equal
    scores.  The score is minus the boosts -- 1000 when the lower-cased
    path contains [tessdata_prefix] or [tesseract_data], 500 when it
    contains [/usr/share], 300 when it contains [home], [users] or [~] --
    minus ten for each entry of the directory named [*.traineddata].
    Candidates with the same key, that is the same score and the same
    lower-cased path, keep the order in which the candidate list gave
    them.  So the order does not depend on how the candidate set is
    enumerated provided no two validated candidates have the same key. *)
Theorem ranker_order_deterministic (fs : filesystem) (paths : list string) :
  let r := _finalize_paths fs paths in
  StronglySorted (ranked_before fs) r
  ∧ r ≡ₚ collect_valid fs paths
  ∧ (∀ p q, ranked_before fs p q ↔
       (priority_key fs p).1 < (priority_key fs q).1
       ∨ ((priority_key fs p).1 = (priority_key fs q).1
          ∧ String.le (Str.lower p) (Str.lower q)))
  ∧ (∀ p, (priority_key fs p).2 = Str.lower p
          ∧ ∃ a b c,
              (priority_key fs p).1 = - a - b - c - 10 * lang_count fs p
              ∧ boost 1000 ["tessdata_prefix"; "tesseract_data"] (Str.lower p) a
              ∧ boost 500 ["/usr/share"] (Str.lower p) b
              ∧ boost 300 ["home"; "users"; "~"] (Str.lower p) c)
  ∧ (∀ p sz entries, fs !! Path p = Some (Dir true sz entries) →
       lang_count fs p =
         Z.of_nat (length (filter (λ f, Str.endswith f ".traineddata" = true) entries)))
  ∧ (∀ p, (∀ sz entries, fs !! Path p ≠ Some (Dir true sz entries)) →
       lang_count fs p = 0)
  ∧ (∀ k, filter (λ p, priority_key fs p = k) r
          = filter (λ p, priority_key fs p = k) (collect_valid fs paths))
  ∧ (∀ paths', (∀ p, p ∈ paths' ↔ p ∈ paths) →
       (∀ x y, x ∈ collect_valid fs paths → y ∈ collect_valid fs paths →
               priority_key fs x = priority_key fs y → x = y) →
       _finalize_paths fs paths' = r).
Proof.
  intros r. split_and!.
  - apply finalize_paths_sorted.
  - apply finalize_paths_perm.
  - intros p q. unfold ranked_before, key_le. by rewrite !priority_key_score.
  - intros p. rewrite priority_key_score. split; [done|].
    exists (marker_boost p), (system_boost p), (user_boost p).
    split_and!; [done| | |].
    + apply any_in_boost.
    + rewrite system_boost_any. apply any_in_boost.
    + apply any_in_boost.
  - apply lang_count_dir.
  - apply lang_count_other.
  - apply finalize_paths_stable.
  - intros paths'. apply finalize_paths_order_independent.
Qed.

(** Three valid directories, given in two different orders. *)
Definition fs_ranked : filesystem :=
  {[ "/usr/share/tessdata" := Dir true 4096 ["eng.traineddata"];
     "/opt/tess" := Dir true 4096 ["eng.traineddata"; "fra.traineddata"];
     "/opt/Alt" := Dir true 4096 ["deu.traineddata"; "osd.traineddata"; "README"] ]}.

Lemma ranker_order_deterministic_witness :
  _finalize_paths fs_ranked ["/opt/tess"; "/usr/share/tessdata"; "/opt/Alt"]
    = ["/usr/share/tessdata"; "/opt/Alt"; "/opt/tess"]
  ∧ (priority_key fs_ranked "/usr/share/tessdata").1 = -510
  ∧ (priority_key fs_ranked "/opt/Alt").1 = -20
  ∧ (priority_key fs_ranked "/opt/tess").1 = -20
  ∧ (priority_key fs_ranked "/home/ann/TESSDATA_PREFIX").1 = -1300
  ∧ _finalize_paths fs_ranked ["/opt/Alt"; "/opt/tess"; "/opt/Alt"; "/usr/share/tessdata"]
    = _finalize_paths fs_ranked ["/opt/tess"; "/usr/share/tessdata"; "/opt/Alt"].
Proof.
  split_and!; [by vm_compute..|].
  destruct (ranker_order_deterministic fs_ranked
              ["/opt/tess"; "/usr/share/tessdata"; "/opt/Alt"])
    as (_ & _ & _ & _ & _ & _ & _ & Hindep).
  apply Hindep.
  - intros p. rewrite !elem_of_cons. tauto.
  - intros x y Hx Hy.
    assert (Hcv : collect_valid fs_ranked ["/opt/tess"; "/usr/share/tessdata"; "/opt/Alt"]
                  = ["/opt/tess"; "/usr/share/tessdata"; "/opt/Alt"]) by by vm_compute.
    rewrite Hcv in Hx, Hy.
    repeat (apply elem_of_cons in Hx as [->|Hx]);
      repeat (apply elem_of_cons in Hy as [->|Hy]);
      try (by apply elem_of_nil in Hx); try (by apply elem_of_nil in Hy);
      try done; by vm_compute.
Defined.

(** ** Nothing found (C8) *)





Lemma set_clock_same (w : world) : set_clock (clock w) w = w.
Proof. by destruct w. Qed.


(** A cache, written earlier in the day, that lists a directory no probe
    looks at any more. *)
Definition fs_data : filesystem :=
  {[ "/data/tess" := Dir true 4096 ["eng.traineddata"] ]}.

Definition w_warm : world :=
  {| fs := fs_data; environ := ∅; cwd := "/root"; clock := 100000;
     cache := Some {| st_mtime := 99000;
                      content := Some {| rec_paths := Some ["/data/tess"];
                                         rec_timestamp := 99000;
                                         rec_os := "linux" |} |};
     cache_writable := true |}.




Lemma append_new_nil (langs : list string) : append_new langs [] = langs.
Proof. done. Qed.

(** The constructor is the one place that can fail: without a home
    directory the module-level functions raise before any search begins
    ([clear_cache] wraps the same call of [Path.home()] in a [try]). *)
Lemma no_home_no_finder (h : host) (w : world) (os : string) (timeout : Z) :
  path_home h = None →
  find_all_paths h w os timeout = Raise RuntimeError
  ∧ get_tessdata_path h w os = Raise RuntimeError.
Proof. intros Hhome. unfold find_all_paths, get_tessdata_path. by rewrite Hhome. Qed.





(** ** The environment directory and the ranker (C2) *)

Definition fs_env : filesystem :=
  {[ "/opt/tess" :=
       Dir true 4096 ["eng.traineddata"; "fra.traineddata"; "deu.traineddata"];
     "/usr/share/tessdata" := Dir true 4096 ["eng.traineddata"] ]}.

Definition w_env : world :=
  {| fs := fs_env; environ := {[ "TESSDATA_PREFIX" := "/opt/tess" ]};
     cwd := "/root"; clock := 100000; cache := None; cache_writable := true |}.

Definition h_env : host :=
  {| path_home := Some "/root";
     startup_time := 1;
     env_vars_time := 0;
     _check_tesseract_command := fun _ _ => (Raise FileNotFoundError, 1);
     _check_common_paths_smart := fun _ _ => (Ok ["/usr/share/tessdata"], 1);
     _check_binary_relative_paths := quiet;
     _check_package_locations := quiet |}.

(** What the marker does achieve: a path whose text contains the marker
    and that holds three data files is ranked strictly before an unmarked
    system-share path with one data file, the user boost being equal. *)
Lemma marked_path_ranks_first (fs : filesystem) (p q : string) :
  marker_boost p = 1000 → marker_boost q = 0 → system_boost q = 500 →
  user_boost p = user_boost q →
  lang_count fs p = 3 → lang_count fs q = 1 →
  key_lt (priority_key fs p) (priority_key fs q) = true.
Proof.
  intros Hp Hq Hsys Huser Hcp Hcq.
  rewrite !priority_key_score, Hp, Hq, Hsys, Huser, Hcp, Hcq.
  assert (0 ≤ system_boost p)
    by (unfold system_boost; destruct (Str.contains _ _); lia).
  unfold key_lt. cbn [fst snd].
  match goal with
  | |- (if ?a =? ?b then _ else _) = true =>
      destruct (Z.eqb_spec a b); [lia|apply Z.ltb_lt; lia]
  end.
Qed.

(** C2 at a concrete input: [TESSDATA_PREFIX] names a valid directory
    with three data files, the environment probe returns it, and the
    ranker still puts [/usr/share/tessdata] with its single data file
    first, because the marker test looks for the variable's name in the
    text of the path. *)
Lemma env_dir_outranked :
  _check_environment_vars w_env = ["/opt/tess"]
  ∧ priority_key fs_env "/opt/tess" = (-30, "/opt/tess")
  ∧ priority_key fs_env "/usr/share/tessdata" = (-510, "/usr/share/tessdata")
  ∧ find_all_paths h_env w_env "linux" 8 = Ok ["/usr/share/tessdata"; "/opt/tess"]
  ∧ get_tessdata_path h_env w_env "linux" = Ok (Some "/usr/share/tessdata").
Proof. by vm_compute. Qed.

(** ** The language listing (C9) *)

Lemma append_new_snoc (langs items : list string) (item : string) :
  append_new langs (items ++ [item]) =
    if bool_decide (item ∈ append_new langs items) then append_new langs items
    else append_new langs items ++ [item].
Proof. unfold append_new. by rewrite foldl_app. Qed.

Lemma append_new_NoDup (langs items : list string) :
  NoDup langs → NoDup (append_new langs items).
Proof.
  intros Hlangs. induction items as [|item items IH] using rev_ind; [done|].
  rewrite append_new_snoc. case_bool_decide as Hin; [done|].
  apply NoDup_app. split_and!; [done| |apply NoDup_singleton].
  by intros x Hx ->%list_elem_of_singleton.
Qed.

Lemma append_new_elem_of (langs items : list string) (x : string) :
  x ∈ append_new langs items ↔ x ∈ langs ∨ x ∈ items.
Proof.
  induction items as [|item items IH] using rev_ind.
  { rewrite append_new_nil, elem_of_nil. tauto. }
  rewrite append_new_snoc. case_bool_decide as Hin.
  - rewrite IH, elem_of_app, list_elem_of_singleton. split; [tauto|].
    intros [?|[?| ->]]; [tauto..|]. by apply IH.
  - rewrite !elem_of_app, IH, list_elem_of_singleton. tauto.
Qed.

(** The codes gathered from a list of directories, in first-seen order. *)
Definition codes_from (fs : filesystem) (dirs : list string) : list string :=
  foldl (fun langs dirpath =>
           append_new langs (get_languages_from_path fs dirpath))
        [] dirs.

Lemma codes_from_snoc (fs : filesystem) (dirs : list string) (d : string) :
  codes_from fs (dirs ++ [d]) =
    append_new (codes_from fs dirs) (get_languages_from_path fs d).
Proof. unfold codes_from. by rewrite foldl_app. Qed.

Lemma codes_from_NoDup (fs : filesystem) (dirs : list string) :
  NoDup (codes_from fs dirs).
Proof.
  induction dirs as [|d dirs IH] using rev_ind; [constructor|].
  rewrite codes_from_snoc. by apply append_new_NoDup.
Qed.

Lemma codes_from_elem_of (fs : filesystem) (dirs : list string) (x : string) :
  x ∈ codes_from fs dirs ↔ ∃ d, d ∈ dirs ∧ x ∈ get_languages_from_path fs d.
Proof.
  induction dirs as [|d dirs IH] using rev_ind.
  { split; [by intros ?%elem_of_nil|by intros (? & ?%elem_of_nil & _)]. }
  rewrite codes_from_snoc, append_new_elem_of, IH. split.
  - intros [(d' & ? & ?)|?]; [exists d'|exists d];
      rewrite elem_of_app, list_elem_of_singleton; auto.
  - intros (d' & [?| ->%list_elem_of_singleton]%elem_of_app & ?); eauto.
Qed.

(** The directories that hold [configs/box.train]. *)
Definition with_box_train (fs : filesystem) (dirs : list string) : list string :=
  filter (fun d => os_path_isfile fs (d +:+ "/configs/box.train") = true) dirs.

Lemma first_pass_filter (fs : filesystem) (dirs : list string) (acc : list string) :
  foldl (fun langs dirpath =>
           if os_path_isfile fs (dirpath +:+ "/configs/box.train")
           then append_new langs (get_languages_from_path fs dirpath)
           else langs)
        acc dirs
  = foldl (fun langs dirpath =>
             append_new langs (get_languages_from_path fs dirpath))
          acc (with_box_train fs dirs).
Proof.
  revert acc. induction dirs as [|d dirs IH]; intros acc; [done|].
  unfold with_box_train in *. rewrite filter_cons. cbn [foldl].
  destruct (os_path_isfile fs (d +:+ "/configs/box.train")) eqn:E.
  - rewrite decide_True by done. cbn [foldl]. apply IH.
  - rewrite decide_False by done. apply IH.
Qed.

(** The list that [get_all_languages] sorts. *)
Lemma get_all_languages_unfold (w : world) (h : host2) :
  get_all_languages w h =
    sorted String.ltb id
      (match codes_from (fs w) (with_box_train (fs w) (find_paths w h)) with
       | [] => codes_from (fs w) (find_paths w h)
       | langs => langs
       end).
Proof.
  unfold get_all_languages, codes_from. cbn zeta.
  rewrite first_pass_filter.
  by destruct (foldl _ [] (with_box_train _ _)).
Qed.

Lemma get_languages_from_path_dir (fs : filesystem) (d : string) sz entries :
  fs !! d = Some (Dir true sz entries) →
  get_languages_from_path fs d =
    Str.drop_last 12 <$>
      filter (λ f, Str.endswith (Str.lower f) ".traineddata" = true) entries.
Proof.
  intros Hd. unfold get_languages_from_path, os_access_R, listdir. by rewrite Hd.
Qed.

Lemma sorted_strings_sorted (l : list string) :
  StronglySorted String.le (sorted String.ltb id l).
Proof.
  eapply StronglySorted_weaken;
    [|apply (sorted_sorted String.ltb id ltb_asym ltb_ge_trans)].
  intros x y. unfold not_after. by rewrite ltb_false_le.
Qed.

(** The listing as the specification words it: the stems of the
    recognised data files of every discovered directory, without
    duplicates, sorted. *)
Definition all_languages_spec (w : world) (h : host2) : list string :=
  sorted String.ltb id
    (remove_dups
       (d ← find_paths w h;
        match fs w !! d with
        | Some (Dir true _ entries) =>
            stem <$> filter (λ f, Str.endswith (Str.lower f) ".traineddata" = true)
                            entries
        | _ => []
        end)).

(** Two discovered directories; only the first holds [configs/box.train]. *)
Definition fs_box : filesystem :=
  {[ "/usr/share/tessdata" := Dir true 4096 ["eng.traineddata"; "configs"];
     "/usr/share/tessdata/configs/box.train" := File true 120;
     "/opt/tess/tessdata" := Dir true 4096 ["fra.traineddata"] ]}.

Definition w_box : world :=
  {| fs := fs_box; environ := ∅; cwd := "/root"; clock := 100000;
     cache := None; cache_writable := true |}.

Definition h2_box : host2 :=
  {| _find_tesseract_binaries := []; bin_dir := id;
     _get_tessdata_from_tesseract := [];
     _comprehensive_tessdata_search := ["/usr/share/tessdata"; "/opt/tess/tessdata"];
     home := "/root" |}.

(** C9, as stated, fails: as soon as a directory with [configs/box.train]
    yields a code, the codes of the directories without that file are left
    out. *)
Lemma box_train_counterexample :
  find_paths w_box h2_box = ["/usr/share/tessdata"; "/opt/tess/tessdata"]
  ∧ _is_valid_tessdata_dir fs_box "/opt/tess/tessdata" = true
  ∧ get_languages_from_path fs_box "/opt/tess/tessdata" = ["fra"]
  ∧ all_languages_spec w_box h2_box = ["eng"; "fra"]
  ∧ get_all_languages w_box h2_box = ["eng"].
Proof. by vm_compute. Qed.

(** C9 (amended): [get_all_languages] returns a sorted list without
    duplicates.  Its members are the codes of the discovered directories
    that hold [configs/box.train] or, when those give no code at all, the
    codes of every discovered directory.  The codes of a readable directory
    are its entry names that end, lower-cased, with ['.traineddata'], with
    their last twelve characters removed.  When discovery yields one
    directory whose data files are [eng.traineddata] and [fra.traineddata],
    the result is [["eng"; "fra"]]. *)
Theorem all_languages_sorted_unique (w : world) (h : host2) :
  let r := get_all_languages w h in
  let dirs := find_paths w h in
  let boxed := with_box_train (fs w) dirs in
  StronglySorted String.le r
  ∧ NoDup r
  ∧ (codes_from (fs w) boxed ≠ [] →
     ∀ x, x ∈ r ↔ ∃ d, d ∈ boxed ∧ x ∈ get_languages_from_path (fs w) d)
  ∧ (codes_from (fs w) boxed = [] →
     ∀ x, x ∈ r ↔ ∃ d, d ∈ dirs ∧ x ∈ get_languages_from_path (fs w) d)
  ∧ (∀ d sz entries, fs w !! d = Some (Dir true sz entries) →
     get_languages_from_path (fs w) d =
       Str.drop_last 12 <$>
         filter (λ f, Str.endswith (Str.lower f) ".traineddata" = true) entries)
  ∧ (∀ D sz entries,
       dirs = [D] →
       fs w !! D = Some (Dir true sz entries) →
       filter (λ f, Str.endswith (Str.lower f) ".traineddata" = true) entries
         ≡ₚ ["eng.traineddata"; "fra.traineddata"] →
       r = ["eng"; "fra"]).
Proof.
  intros r dirs boxed. unfold r. rewrite get_all_languages_unfold.
  fold dirs. fold boxed.
  split_and!.
  - apply sorted_strings_sorted.
  - rewrite sorted_perm.
    destruct (codes_from (fs w) boxed) eqn:E; [|rewrite <-E];
      apply codes_from_NoDup.
  - intros Hne x. rewrite sorted_perm.
    destruct (codes_from (fs w) boxed) eqn:E; [done|].
    rewrite <-E. apply codes_from_elem_of.
  - intros -> x. rewrite sorted_perm. apply codes_from_elem_of.
  - intros d sz entries. apply get_languages_from_path_dir.
  - intros D sz entries HD Hdir Hperm.
    pose proof (get_languages_from_path_dir _ _ _ _ Hdir) as Hlangs.
    assert (Hcodes : get_languages_from_path (fs w) D = ["eng"; "fra"]
                     ∨ get_languages_from_path (fs w) D = ["fra"; "eng"]).
    { rewrite Hlangs. symmetry in Hperm.
      apply Permutation_length_2_inv in Hperm as [-> | ->]; [by left|by right]. }
    unfold boxed. rewrite HD. unfold with_box_train. rewrite filter_cons, filter_nil.
    destruct (decide _); unfold codes_from; simpl;
      destruct Hcodes as [-> | ->]; by vm_compute.
Qed.

(** One discovered directory with the two data files and other entries. *)
Definition fs_two : filesystem :=
  {[ "/usr/share/tessdata" :=
       Dir true 4096 ["fra.traineddata"; "pdf.ttf"; "eng.traineddata"; "configs"] ]}.

Definition w_two : world :=
  {| fs := fs_two; environ := ∅; cwd := "/root"; clock := 100000;
     cache := None; cache_writable := true |}.

Definition h2_two : host2 :=
  {| _find_tesseract_binaries := []; bin_dir := id;
     _get_tessdata_from_tesseract := [];
     _comprehensive_tessdata_search := ["/usr/share/tessdata"];
     home := "/root" |}.

Lemma all_languages_sorted_unique_witness :
  get_all_languages w_two h2_two = ["eng"; "fra"]
  ∧ ∀ x, x ∈ get_all_languages w_two h2_two ↔
         ∃ d, d ∈ find_paths w_two h2_two
              ∧ x ∈ get_languages_from_path (fs w_two) d.
Proof.
  destruct (all_languages_sorted_unique w_two h2_two)
    as (_ & _ & _ & Hall & _ & Hscenario).
  split.
  - apply (Hscenario "/usr/share/tessdata" 4096
             ["fra.traineddata"; "pdf.ttf"; "eng.traineddata"; "configs"]).
    + by vm_compute.
    + by vm_compute.
    + assert (filter (λ f, Str.endswith (Str.lower f) ".traineddata" = true)
                ["fra.traineddata"; "pdf.ttf"; "eng.traineddata"; "configs"]
              = ["fra.traineddata"; "eng.traineddata"]) as -> by by vm_compute.
      apply Permutation_swap.
  - apply Hall. by vm_compute.
Defined.

(** ** [validate_tessdata_path] (C10) *)

Ltac info_lookup :=
  repeat (rewrite lookup_insert_eq
          || (rewrite lookup_insert_ne by done)
          || rewrite lookup_singleton_eq
          || (rewrite lookup_singleton_ne by done)).

Definition info_keys : list string :=
  ["path"; "valid"; "exists"; "readable"; "language_count"; "languages"; "size_mb"].

(** The entries of a directory that [*.traineddata] matches. *)
Definition traineddata_files (entries : list string) : list string :=
  filter (λ f, Str.endswith f ".traineddata" = true) entries.

(** C10: [validate_tessdata_path] always returns a dictionary (every
    exception is caught) with the keys [path], [valid], [exists],
    [readable], [language_count], [languages] and [size_mb].
    [language_count] is the length of [languages].  When [valid] is true,
    [exists] and [readable] are true, there is at least one language, and
    the languages are the stems of the directory's entries named
    [*.traineddata].  When the path does not exist or cannot be read,
    [valid] is false and [language_count] is zero. *)
Theorem validate_record (fs : filesystem) (path : string) :
  let info := validate_tessdata_path fs path in
  (∀ k, k ∈ info_keys → is_Some (info !! k))
  ∧ info !! "path" = Some (VStr path)
  ∧ ∃ (valid ex readable : bool) (n : Z) (langs : list string),
      info !! "valid" = Some (VBool valid)
      ∧ info !! "exists" = Some (VBool ex)
      ∧ info !! "readable" = Some (VBool readable)
      ∧ info !! "language_count" = Some (VInt n)
      ∧ info !! "languages" = Some (VList langs)
      ∧ n = Z.of_nat (length langs)
      ∧ (valid = true →
           ex = true ∧ readable = true ∧ 1 ≤ n
           ∧ ∃ sz entries, fs !! path = Some (Dir true sz entries)
                           ∧ langs = stem <$> traineddata_files entries)
      ∧ (os_path_exists fs path = false ∨ os_access_R fs path = false →
           valid = false ∧ n = 0).
Proof.
  intros info. subst info.
  unfold validate_tessdata_path, exists_, os_access_R, os_path_exists,
    glob_traineddata, is_dir, listdir, info_keys.
  destruct (fs !! path) as [[[] sz|[] sz entries|]|] eqn:Hnode; simpl;
    try destruct (total_size fs path _) as [total|e] eqn:Htotal.
  all: split; [intros k Hk;
               repeat (apply elem_of_cons in Hk as [->|Hk]);
               try (by apply elem_of_nil in Hk); info_lookup; by eexists|].
  all: split; [by info_lookup|].
  all: eexists _, _, _, _, _.
  all: split_and!; [by info_lookup..| | |].
  all: try (rewrite length_fmap; reflexivity); try reflexivity.
  all: try (intros [?|?]; done).
  all: try done.
  all: intros Hvalid; split_and!; try done.
  all: try (destruct (Z.gtb_spec (Z.of_nat (length (filter
              (λ f, Str.endswith f ".traineddata" = true) entries))) 0); [lia|done]).
  all: by exists sz, entries.
Qed.

(** A directory with two data files of two and three mebibytes. *)
Definition fs_sizes : filesystem :=
  {[ "/usr/share/tessdata" := Dir true 4096 ["eng.traineddata"; "fra.traineddata"; "configs"];
     "/usr/share/tessdata/eng.traineddata" := File true 2097152;
     "/usr/share/tessdata/fra.traineddata" := File true 3145728;
     "/usr/share/tessdata/configs" := Dir true 4096 [] ]}.

Lemma validate_record_witness :
  validate_tessdata_path fs_sizes "/usr/share/tessdata" !! "languages"
    = Some (VList ["eng"; "fra"])
  ∧ validate_tessdata_path fs_sizes "/usr/share/tessdata" !! "size_mb"
    = Some (VSizeMb 5242880)
  ∧ validate_tessdata_path fs_sizes "/usr/share/tessdata" !! "exists"
    = Some (VBool true)
  ∧ validate_tessdata_path fs_sizes "/usr/share/tessdata" !! "readable"
    = Some (VBool true)
  ∧ validate_tessdata_path fs_sizes "/missing" !! "valid" = Some (VBool false).
Proof.
  destruct (validate_record fs_sizes "/usr/share/tessdata")
    as (_ & _ & valid & ex & readable & n & langs
        & Hvalid & Hex & Hreadable & _ & _ & _ & Htrue & _).
  assert (valid = true) as Hv by (vm_compute in Hvalid; congruence).
  destruct (Htrue Hv) as (-> & -> & _).
  destruct (validate_record fs_sizes "/missing")
    as (_ & _ & valid' & ? & ? & ? & ? & Hvalid' & _ & _ & _ & _ & _ & _ & Hfalse).
  destruct Hfalse as [-> _]; [by left|].
  split_and!; [by vm_compute|by vm_compute|done..].
Defined.

(** * Further properties of the code *)

(** ** The cache: save, load, clear *)

Lemma filter_all {A} (P : A → Prop) `{∀ x, Decision (P x)} (l : list A) :
  (∀ x, x ∈ l → P x) → filter P l = l.
Proof.
  induction l as [|x l IH]; intros Hall; [done|].
  rewrite filter_cons, decide_True by (apply Hall; left).
  f_equal. apply IH. intros y Hy. apply Hall. by right.
Qed.

(** Saving a list of valid directories and loading it again, at any
    moment up to six hours later and with the filesystem unchanged, gives
    the list back, in the same order. *)
Theorem cache_round_trip (w : world) (self : finder) (paths : list string) (t : Z) :
  cache_writable w = true →
  (∀ p, p ∈ paths → _is_valid_tessdata_quick (fs w) p = true) →
  t - clock w ≤ cache_max_age →
  _load_cache (set_clock t (_save_cache w self paths)) = paths.
Proof.
  intros Hwritable Hvalid Hage.
  unfold _save_cache. rewrite Hwritable. unfold _load_cache. simpl.
  destruct (Z.gtb_spec (t - clock w) cache_max_age); [lia|].
  rewrite filter_all by done. by destruct paths.
Qed.

Lemma cache_round_trip_witness :
  _load_cache (set_clock 120000
                 (_save_cache w_env (new_finder 8 "linux")
                              ["/usr/share/tessdata"; "/opt/tess"]))
  = ["/usr/share/tessdata"; "/opt/tess"].
Proof.
  apply (cache_round_trip w_env (new_finder 8 "linux")
           ["/usr/share/tessdata"; "/opt/tess"] 120000).
  - reflexivity.
  - intros p Hp.
    repeat (apply elem_of_cons in Hp as [->|Hp]);
      [by vm_compute..|exfalso; by apply elem_of_nil in Hp].
  - vm_compute. discriminate.
Defined.

(** The module-level [clear_cache].  [unlinkable] tells whether
    [cache_file.unlink()] succeeds; when it raises, the bare [except]
    swallows the error and the function returns [False]. *)
Definition clear_cache (unlinkable : bool) (w : world) : bool * world :=
  match cache w with
  | Some _ => if unlinkable then (true, set_cache None w) else (false, w)
  | None => (false, w)
  end.

(** [clear_cache] returns [True] exactly when a cache file existed and
    could be removed.  After that the cache load is a miss and a second
    [clear_cache] returns [False]; when it returns [False] nothing has
    changed.  The directories on disk are never touched. *)
Theorem clear_cache_effect (unlinkable : bool) (w : world) :
  let r := clear_cache unlinkable w in
  (r.1 = true ↔ is_Some (cache w) ∧ unlinkable = true)
  ∧ (r.1 = true →
       _load_cache r.2 = [] ∧ clear_cache unlinkable r.2 = (false, r.2)
       ∧ ∀ h self, cache_hit (find_tessdata_paths h r.2 self true) = false)
  ∧ (r.1 = false → r.2 = w)
  ∧ fs r.2 = fs w.
Proof.
  unfold clear_cache.
  destruct (cache w) as [f|] eqn:Hcache; [destruct unlinkable|]; simpl.
  - split_and!; [by split; eauto| |done|done].
    intros _. split_and!; [done|done|].
    intros h self. unfold find_tessdata_paths.
    change (_load_cache (set_cache None w)) with (@nil string).
    by destruct (run_methods (methods h) _ _) as [[? ?] ?].
  - split_and!; [|done..]. split; [done|]. by intros [_ ?].
  - split_and!; [|done..]. split; [done|]. by intros [[? ?] _].
Qed.

(** ** The search as a whole *)

(** Probing changes nothing in the world but the clock. *)
Lemma run_methods_world (ms : list (string * method)) (w : world) (self : finder) :
  ∃ t, (run_methods ms w self).1.1 = set_clock t w.
Proof.
  revert w self. induction ms as [|[name m] rest IH]; intros w self.
  - exists (clock w). simpl. by rewrite set_clock_same.
  - destruct (stop_probing w self) eqn:Hstop.
    + exists (clock w). simpl. by rewrite Hstop, set_clock_same.
    + rewrite run_methods_step by done. cbn zeta. cbn [fst snd].
      destruct (IH (set_clock (clock w + (m w self).2) w)
                   (merge_outcome self (m w self).1)) as [t ->].
      by exists t.
Qed.

Lemma fresh_search_saved (h : host) (w : world) (self : finder) :
  let s := find_tessdata_paths h w self true in
  cache_hit s = false →
  result s ≠ [] →
  ∃ t1 self1, world_after s = _save_cache (set_clock t1 w) self1 (result s).
Proof.
  unfold find_tessdata_paths.
  destruct (_load_cache w) eqn:Hcached; [|done].
  set (self0 := {| timeout := timeout self; start_time := Some (clock w);
                   found_paths := ∅; os_type := os_type self |}).
  destruct (run_methods_world (methods h) (set_clock (clock w + startup_time h) w) self0) as [t1 Hw1].
  destruct (run_methods (methods h) (set_clock (clock w + startup_time h) w) self0) as [[w1 self1] log].
  simpl in Hw1. subst w1.
  destruct (_finalize_paths _ _) as [|x r] eqn:Hr; [done|].
  intros _ _. by exists t1, self1.
Qed.

(** After a search that found something and stored it, a second search
    within six hours, on the same filesystem, is answered from the cache
    with the same list and launches no probe -- provided the directories
    of the first result still pass the validator. *)
Theorem repeat_search_hits_cache (h : host) (w : world) (self self' : finder) (t : Z) :
  let s := find_tessdata_paths h w self true in
  cache_hit s = false →
  result s ≠ [] →
  cache_writable w = true →
  (∀ p, p ∈ result s → _is_valid_tessdata_quick (fs w) p = true) →
  t - clock (world_after s) ≤ cache_max_age →
  let s2 := find_tessdata_paths h (set_clock t (world_after s)) self' true in
  cache_hit s2 = true ∧ result s2 = result s ∧ launched s2 = [].
Proof.
  intros s Hmiss Hne Hwritable Hvalid Hage.
  destruct (fresh_search_saved h w self Hmiss Hne) as (t1 & self1 & Hsaved).
  fold s in Hsaved. rewrite Hsaved in *.
  assert (Hload : _load_cache (set_clock t (_save_cache (set_clock t1 w) self1 (result s)))
                  = result s).
  { apply cache_round_trip; [done|done|].
    revert Hage. unfold _save_cache. simpl. by rewrite Hwritable. }
  cbv zeta. unfold find_tessdata_paths at 1 2 3. rewrite Hload.
  by destruct (result s).
Qed.

Lemma repeat_search_hits_cache_witness :
  let s := find_tessdata_paths h_env w_env (new_finder 8 "linux") true in
  let s2 := find_tessdata_paths h_env (set_clock 103600 (world_after s))
              (new_finder 8 "linux") true in
  result s = ["/usr/share/tessdata"; "/opt/tess"]
  ∧ cache_hit s2 = true ∧ result s2 = result s ∧ launched s2 = [].
Proof.
  split; [by vm_compute|].
  apply (repeat_search_hits_cache h_env w_env (new_finder 8 "linux")
           (new_finder 8 "linux") 103600).
  - by vm_compute.
  - by vm_compute.
  - reflexivity.
  - intros p Hp.
    assert (Hr : result (find_tessdata_paths h_env w_env (new_finder 8 "linux") true)
                 = ["/usr/share/tessdata"; "/opt/tess"]) by by vm_compute.
    rewrite Hr in Hp.
    repeat (apply elem_of_cons in Hp as [->|Hp]);
      [by vm_compute..|exfalso; by apply elem_of_nil in Hp].
  - vm_compute. discriminate.
Defined.

(** The first guard reads the clock after the cache check.  In a fresh
    search (begun at a clock reading other than zero) no probe is launched
    and the result is empty when the time that has passed by then already
    exceeds the budget -- with a budget of zero, as soon as any time has
    passed; otherwise the environment probe is the first one launched. *)
Theorem first_probe_and_budget (h : host) (w : world) (self : finder)
    (use_cache : bool) :
  let s := find_tessdata_paths h w self use_cache in
  cache_hit s = false →
  clock w ≠ 0 →
  (timeout self < startup_time h → launched s = [] ∧ result s = [])
  ∧ (startup_time h ≤ timeout self →
     ∃ st rest, launched s = ("env_vars", st) :: rest).
Proof.
  unfold find_tessdata_paths.
  destruct (if use_cache then _load_cache w else []) eqn:Hcached; [|done].
  intros _ Hclock.
  set (self0 := {| timeout := timeout self; start_time := Some (clock w);
                   found_paths := ∅; os_type := os_type self |}).
  set (w0 := set_clock (clock w + startup_time h) w).
  assert (Helapsed : _elapsed w0 self0 = startup_time h).
  { rewrite (elapsed_since_start w0 self0 (clock w)) by done. simpl. lia. }
  split.
  - intros Hbudget.
    assert (Hstop : stop_probing w0 self0 = true).
    { unfold stop_probing, _is_timeout. rewrite Helapsed. simpl.
      destruct (Z.gtb_spec (startup_time h) (timeout self)); [done|lia]. }
    unfold methods. cbn [run_methods]. rewrite Hstop.
    cbn [found_paths self0]. rewrite elements_empty. by split.
  - intros Hbudget.
    assert (Hgo : stop_probing w0 self0 = false).
    { unfold stop_probing, _is_timeout. rewrite Helapsed. simpl.
      destruct (Z.gtb_spec (startup_time h) (timeout self)); [lia|done]. }
    unfold methods. rewrite run_methods_step by done. cbn zeta.
    destruct (run_methods _ _ _) as [[w1 self1] log]. cbn [fst snd].
    match goal with
    | |- context [_finalize_paths ?a ?b] => destruct (_finalize_paths a b)
    end; cbn [launched]; by eexists _, _.
Qed.

Lemma first_probe_and_budget_witness :
  startup_time h_env = 1
  ∧ launched (find_tessdata_paths h_env w_env (new_finder 0 "linux") false) = []
  ∧ result (find_tessdata_paths h_env w_env (new_finder 0 "linux") false) = []
  ∧ ∃ st rest,
      launched (find_tessdata_paths h_env w_env (new_finder 1 "linux") false)
      = ("env_vars", st) :: rest.
Proof.
  split; [done|].
  destruct (first_probe_and_budget h_env w_env (new_finder 0 "linux") false)
    as [Hnone _]; [by vm_compute|by vm_compute|].
  destruct (first_probe_and_budget h_env w_env (new_finder 1 "linux") false)
    as [_ Hfirst]; [by vm_compute|by vm_compute|].
  split_and!; [by apply Hnone|by apply Hnone|by apply Hfirst].
Defined.

Lemma merge_outcome_found (self : finder) (outcome : py (list string)) (p : string) :
  p ∈ found_paths (merge_outcome self outcome) →
  p ∈ found_paths self ∨ ∃ paths, outcome = Ok paths ∧ p ∈ paths.
Proof.
  unfold merge_outcome. destruct outcome as [paths|e]; [|by left].
  assert (Hall : p ∈ found_paths self ∪ list_to_set paths →
                 p ∈ found_paths self ∨ ∃ paths', Ok paths = Ok paths' ∧ p ∈ paths').
  { rewrite elem_of_union, elem_of_list_to_set. intros [?|?]; eauto. }
  destruct paths as [|q paths]; [by left|]. exact Hall.
Qed.

(** Whatever ends up in [found_paths] was there before or was returned
    by a probe that the loop launched. *)
Lemma run_methods_found (ms : list (string * method)) (w : world) (self : finder)
    (p : string) :
  p ∈ found_paths (run_methods ms w self).1.2 →
  p ∈ found_paths self
  ∨ ∃ name m w' self' paths,
      (name, (w', self')) ∈ (run_methods ms w self).2
      ∧ (name, m) ∈ ms
      ∧ (m w' self').1 = Ok paths
      ∧ p ∈ paths.
Proof.
  revert w self. induction ms as [|[name m] rest IH]; intros w self.
  - by left.
  - destruct (stop_probing w self) eqn:Hstop.
    + simpl. rewrite Hstop. by left.
    + rewrite run_methods_step by done. cbn zeta. cbn [fst snd].
      intros [Hp|(name' & m' & w' & self' & paths & Hlog & Hm & Hout & Hp)]%IH.
      * apply merge_outcome_found in Hp as [?|(paths & Hout & Hp)]; [by left|].
        right. exists name, m, w, self, paths. split_and!; [by left|by left|done..].
      * right. exists name', m', w', self', paths.
        split_and!; [by right|by right|done..].
Qed.

(** Every path in the result of a fresh search is the normalised form of
    a path that one of the launched probes returned and that passed the
    validator; the search invents no path. *)
Theorem fresh_result_provenance (h : host) (w : world) (self : finder)
    (use_cache : bool) (x : string) :
  let s := find_tessdata_paths h w self use_cache in
  cache_hit s = false →
  x ∈ result s →
  ∃ name m w' self' paths p,
    (name, (w', self')) ∈ launched s
    ∧ (name, m) ∈ methods h
    ∧ (m w' self').1 = Ok paths
    ∧ p ∈ paths
    ∧ _is_valid_tessdata_quick (fs w) p = true
    ∧ x = normpath p.
Proof.
  unfold find_tessdata_paths.
  destruct (if use_cache then _load_cache w else []) eqn:Hcached; [|done].
  set (self0 := {| timeout := timeout self; start_time := Some (clock w);
                   found_paths := ∅; os_type := os_type self |}).
  destruct (run_methods_world (methods h) (set_clock (clock w + startup_time h) w) self0) as [t Hw1].
  pose proof (run_methods_found (methods h) (set_clock (clock w + startup_time h) w) self0) as Hfound.
  destruct (run_methods (methods h) (set_clock (clock w + startup_time h) w) self0) as [[w1 self1] log].
  simpl in Hw1, Hfound. subst w1. simpl.
  intros _ Hx.
  rewrite finalize_paths_perm in Hx.
  apply collect_valid_elem_of in Hx as (p & Hp%elem_of_elements & Hvalid & ->).
  apply Hfound in Hp as [Hp|(name & m & w' & self' & paths & ? & ? & ? & ?)].
  { by apply elem_of_empty in Hp. }
  by exists name, m, w', self', paths, p.
Qed.

Lemma fresh_result_provenance_witness :
  ∃ name m w' self' paths p,
    (name, (w', self'))
      ∈ launched (find_tessdata_paths h_env w_env (new_finder 8 "linux") false)
    ∧ (name, m) ∈ methods h_env
    ∧ (m w' self').1 = Ok paths
    ∧ p ∈ paths
    ∧ _is_valid_tessdata_quick (fs w_env) p = true
    ∧ "/opt/tess" = normpath p.
Proof.
  apply (fresh_result_provenance h_env w_env (new_finder 8 "linux") false "/opt/tess").
  - by vm_compute.
  - assert (result (find_tessdata_paths h_env w_env (new_finder 8 "linux") false)
            = ["/usr/share/tessdata"; "/opt/tess"]) as -> by by vm_compute.
    right. left.
Defined.

Lemma key_le_refl (k : Z * string) : key_le k k.
Proof. right. split; [done|]. reflexivity. Qed.

Lemma finalize_head_minimal (fs : filesystem) (paths : list string) (p q : string) :
  head (_finalize_paths fs paths) = Some p →
  q ∈ _finalize_paths fs paths →
  ranked_before fs p q.
Proof.
  pose proof (finalize_paths_sorted fs paths) as Hsorted.
  destruct (_finalize_paths fs paths) as [|p' r]; [done|].
  intros [= ->] [->|Hq]%elem_of_cons; [apply key_le_refl|].
  apply StronglySorted_cons in Hsorted as [Hall _].
  rewrite Forall_forall in Hall. by apply Hall.
Qed.

(** In a fresh search the primary path is a best-ranked one: no path of
    the result has a smaller key [(score, lower-cased path)].  (A cache hit
    returns the stored order and ranks nothing.) *)
Theorem primary_is_best_ranked (h : host) (w : world) (self : finder) (p q : string) :
  let s := find_tessdata_paths h w self true in
  cache_hit s = false →
  get_primary_path h w self = Some p →
  q ∈ result s →
  ranked_before (fs w) p q.
Proof.
  unfold get_primary_path, find_tessdata_paths.
  destruct (_load_cache w) eqn:Hcached; [|done].
  set (self0 := {| timeout := timeout self; start_time := Some (clock w);
                   found_paths := ∅; os_type := os_type self |}).
  destruct (run_methods_world (methods h) (set_clock (clock w + startup_time h) w) self0) as [t Hw1].
  destruct (run_methods (methods h) (set_clock (clock w + startup_time h) w) self0) as [[w1 self1] log].
  simpl in Hw1. subst w1. simpl.
  intros _. apply finalize_head_minimal.
Qed.

Lemma primary_is_best_ranked_witness :
  ranked_before (fs w_env) "/usr/share/tessdata" "/opt/tess".
Proof.
  apply (primary_is_best_ranked h_env w_env (new_finder 8 "linux")).
  - by vm_compute.
  - by vm_compute.
  - assert (result (find_tessdata_paths h_env w_env (new_finder 8 "linux") true)
            = ["/usr/share/tessdata"; "/opt/tess"]) as -> by by vm_compute.
    right. left.
Defined.

(** ** The validators compared *)



(** A directory whose only data file is named [.traineddata]. *)
Definition fs_hidden : filesystem :=
  {[ "/opt/tessdata" := Dir true 4096 [".traineddata"] ]}.

Lemma validators_differ_on_hidden_file :
  _is_valid_tessdata_quick fs_hidden "/opt/tessdata" = false
  ∧ _is_valid_tessdata_dir fs_hidden "/opt/tessdata" = true.
Proof. by vm_compute. Qed.



(** ** [validate_tessdata_path]: sizes and errors *)

Lemma total_size_ok (fs : filesystem) (p : string) (files : list string) :
  (∀ f, f ∈ files → ∃ sz, stat_size fs p f = Ok sz) →
  ∃ total, total_size fs p files = Ok total.
Proof.
  induction files as [|f files IH]; intros Hall; [by exists 0|].
  destruct (Hall f) as [sz Hsz]; [by left|].
  destruct IH as [total Htotal]; [intros g Hg; apply Hall; by right|].
  exists (sz + total). simpl. by rewrite Hsz, Htotal.
Qed.

Lemma total_size_raise (fs : filesystem) (p : string) (files : list string) (f : string) :
  f ∈ files → (∃ e, stat_size fs p f = Raise e) →
  ∃ e, total_size fs p files = Raise e.
Proof.
  induction files as [|g files IH]; [by intros ?%elem_of_nil|].
  intros [->|Hf]%elem_of_cons [e He]; simpl.
  - exists e. by rewrite He.
  - destruct (stat_size fs p g) as [sz|e']; [|by exists e'].
    destruct (IH Hf) as [e'' ->]; [by exists e|]. by exists e''.
Qed.

(** For a readable directory: when every data file can be stat'ed, the
    record carries the summed size and no [error]; when one of them cannot
    (a dangling link, say), the record carries [error] and a zero
    [size_mb], yet keeps the [valid] flag and the language list it had
    already computed. *)
Theorem validate_size_or_error (fs : filesystem) (p : string) sz entries :
  fs !! p = Some (Dir true sz entries) →
  let info := validate_tessdata_path fs p in
  let files := traineddata_files entries in
  ((∀ f, f ∈ files → ∃ s, stat_size fs p f = Ok s) →
     info !! "error" = None
     ∧ ∃ total, total_size fs p files = Ok total
                ∧ info !! "size_mb" = Some (VSizeMb total))
  ∧ ((∃ f e, f ∈ files ∧ stat_size fs p f = Raise e) →
     is_Some (info !! "error")
     ∧ info !! "size_mb" = Some (VInt 0)
     ∧ info !! "valid" = Some (VBool true)
     ∧ info !! "languages" = Some (VList (stem <$> files))).
Proof.
  intros Hnode info files. subst info.
  unfold validate_tessdata_path, exists_, os_access_R, glob_traineddata,
    is_dir, listdir. rewrite Hnode. simpl. fold (traineddata_files entries).
  fold files. split.
  - intros Hall. destruct (total_size_ok fs p files Hall) as [total Htotal].
    rewrite Htotal. split; [by info_lookup|]. exists total. split; [done|].
    by info_lookup.
  - intros (f & e & Hf & He).
    destruct (total_size_raise fs p files f Hf) as [e' Htotal]; [by exists e|].
    rewrite Htotal. info_lookup. split_and!; [by eexists|done| |done].
    do 2 f_equal.
    destruct (Z.gtb_spec (Z.of_nat (length files)) 0); [done|].
    destruct files; [by apply elem_of_nil in Hf|simpl in *; lia].
Qed.

(** The directory of [fs_sizes] with one data file that is a dangling
    link. *)
Definition fs_dangling : filesystem :=
  {[ "/usr/share/tessdata" := Dir true 4096 ["eng.traineddata"; "fra.traineddata"];
     "/usr/share/tessdata/eng.traineddata" := File true 2097152 ]}.

Lemma validate_size_or_error_witness :
  (validate_tessdata_path fs_sizes "/usr/share/tessdata" !! "error" = None
   ∧ ∃ total, total_size fs_sizes "/usr/share/tessdata"
                (traineddata_files ["eng.traineddata"; "fra.traineddata"; "configs"])
              = Ok total
              ∧ validate_tessdata_path fs_sizes "/usr/share/tessdata" !! "size_mb"
                = Some (VSizeMb total))
  ∧ (is_Some (validate_tessdata_path fs_dangling "/usr/share/tessdata" !! "error")
     ∧ validate_tessdata_path fs_dangling "/usr/share/tessdata" !! "size_mb"
       = Some (VInt 0)
     ∧ validate_tessdata_path fs_dangling "/usr/share/tessdata" !! "valid"
       = Some (VBool true)
     ∧ validate_tessdata_path fs_dangling "/usr/share/tessdata" !! "languages"
       = Some (VList (stem <$> traineddata_files ["eng.traineddata"; "fra.traineddata"]))).
Proof.
  split.
  - apply (validate_size_or_error fs_sizes "/usr/share/tessdata" 4096
             ["eng.traineddata"; "fra.traineddata"; "configs"]); [by vm_compute|].
    intros f Hf.
    assert (traineddata_files ["eng.traineddata"; "fra.traineddata"; "configs"]
            = ["eng.traineddata"; "fra.traineddata"]) as Hfiles by by vm_compute.
    rewrite Hfiles in Hf.
    repeat (apply elem_of_cons in Hf as [->|Hf]);
      [by eexists; vm_compute..|exfalso; by apply elem_of_nil in Hf].
  - apply (validate_size_or_error fs_dangling "/usr/share/tessdata" 4096
             ["eng.traineddata"; "fra.traineddata"]); [by vm_compute|].
    exists "fra.traineddata", FileNotFoundError. split; [|by vm_compute].
    assert (traineddata_files ["eng.traineddata"; "fra.traineddata"]
            = ["eng.traineddata"; "fra.traineddata"]) as -> by by vm_compute.
    right. left.
Defined.

(** ** The environment probe *)

(** The three variables the probe reads. *)
Definition env_vars : list string :=
  ["TESSDATA_PREFIX"; "TESSERACT_DATA_PATH"; "TESSERACT_PREFIX"].

(** What the variable [var] contributes: the absolute form of its value
    when the value itself is a valid directory, else that of its
    [tessdata] subdirectory when that one is valid. *)
Definition env_contributes (w : world) (var x : string) : Prop :=
  ∃ value,
    environ w !! var = Some value
    ∧ value ≠ ""
    ∧ ((_is_valid_tessdata_quick (fs w) value = true ∧ x = abspath (cwd w) value)
       ∨ (_is_valid_tessdata_quick (fs w) value = false
          ∧ _is_valid_tessdata_quick (fs w) (path_join value "tessdata") = true
          ∧ x = abspath (cwd w) (path_join value "tessdata"))).

Lemma env_fold_elem_of (w : world) (vars acc : list string) (x : string) :
  x ∈ foldl (fun paths var =>
               match environ w !! var with
               | Some value =>
                   if String.eqb value "" then paths
                   else
                     let candidates := [value; path_join value "tessdata"] in
                     match List.find (_is_valid_tessdata_quick (fs w)) candidates with
                     | Some candidate => paths ++ [abspath (cwd w) candidate]
                     | None => paths
                     end
               | None => paths
               end)
            acc vars
  ↔ x ∈ acc ∨ ∃ var, var ∈ vars ∧ env_contributes w var x.
Proof.
  revert acc. induction vars as [|var vars IH]; intros acc.
  { simpl. split; [by left|]. intros [?|(? & ?%elem_of_nil & _)]; done. }
  cbn [foldl]. rewrite IH. clear IH.
  assert (Hcons : (∃ v, v ∈ var :: vars ∧ env_contributes w v x)
                  ↔ env_contributes w var x ∨ ∃ v, v ∈ vars ∧ env_contributes w v x).
  { split.
    - intros (v & [->|?]%elem_of_cons & ?); eauto.
    - intros [?|(v & ? & ?)]; [exists var|exists v]; rewrite elem_of_cons; auto. }
  rewrite Hcons. unfold env_contributes.
  destruct (environ w !! var) as [value|] eqn:Hvar.
  - destruct (String.eqb_spec value "") as [->|Hne].
    + split; [tauto|]. intros [?|[(? & [= <-] & ? & _)|?]]; tauto.
    + simpl.
      destruct (_is_valid_tessdata_quick (fs w) value) eqn:Hv1;
        [|destruct (_is_valid_tessdata_quick (fs w) (path_join value "tessdata")) eqn:Hv2].
      * rewrite elem_of_app, list_elem_of_singleton. split.
        -- intros [[?| ->]|?]; [tauto| |tauto]. right. left. exists value. tauto.
        -- intros [?|[(? & [= <-] & _ & [[_ ->]|[? _]])|?]]; try tauto. congruence.
      * rewrite elem_of_app, list_elem_of_singleton. split.
        -- intros [[?| ->]|?]; [tauto| |tauto]. right. left. exists value. tauto.
        -- intros [?|[(? & [= <-] & _ & [[? _]|(_ & _ & ->)])|?]]; try tauto. congruence.
      * split; [tauto|].
        intros [?|[(? & [= <-] & _ & [[? _]|(_ & ? & _)])|?]]; try tauto; congruence.
  - split; [tauto|]. intros [?|[(? & [=] & _)|?]]; tauto.
Qed.

(** The environment probe returns exactly the contributions of the three
    variables: a variable that is unset or empty contributes nothing, the
    value itself is preferred to its [tessdata] subdirectory, and only a
    candidate that passed the validator is returned (in absolute form).
    Each variable contributes at most one path. *)
Theorem environment_probe_paths (w : world) (x : string) :
  (x ∈ _check_environment_vars w ↔ ∃ var, var ∈ env_vars ∧ env_contributes w var x)
  ∧ (length (_check_environment_vars w) ≤ 3)%nat.
Proof.
  split.
  - unfold _check_environment_vars. rewrite env_fold_elem_of.
    split; [|by right]. intros [?%elem_of_nil|?]; done.
  - unfold _check_environment_vars. simpl.
    repeat match goal with
           | |- context [match ?m !! ?k with _ => _ end] => destruct (m !! k)
           | |- context [if String.eqb ?a ?b then _ else _] => destruct (String.eqb a b)
           | |- context [if _is_valid_tessdata_quick ?f ?p then _ else _] =>
               destruct (_is_valid_tessdata_quick f p)
           end; simpl; rewrite ?length_app; simpl; lia.
Qed.

Definition w_prefix_parent : world :=
  {| fs := {[ "/opt/tesseract/tessdata" := Dir true 4096 ["eng.traineddata"];
              "/opt/tesseract" := Dir true 4096 ["tessdata"] ]};
     environ := {[ "TESSERACT_PREFIX" := "/opt/tesseract" ]};
     cwd := "/root"; clock := 100000; cache := None; cache_writable := true |}.

Lemma environment_probe_paths_witness :
  "/opt/tesseract/tessdata" ∈ _check_environment_vars w_prefix_parent.
Proof.
  apply (environment_probe_paths w_prefix_parent "/opt/tesseract/tessdata").
  exists "TESSERACT_PREFIX". split; [by vm_compute; repeat constructor|].
  exists "/opt/tesseract". split_and!; [done|done|].
  right. by vm_compute.
Defined.

(** ** [normpath] is idempotent *)

Fixpoint no_slash (s : string) : bool :=
  match s with
  | "" => true
  | String c s' => negb (Ascii.eqb c "/") && no_slash s'
  end.

Lemma split_nonempty (s : string) : Str.split "/" s ≠ [].
Proof.
  destruct s as [|c s]; simpl; [done|].
  destruct (Str.split "/" s); [done|]. by destruct (Ascii.eqb c "/").
Qed.

Lemma split_no_slash (s : string) : Forall (λ c, no_slash c = true) (Str.split "/" s).
Proof.
  induction s as [|c s IH]; simpl; [by repeat constructor|].
  destruct (Str.split "/" s) as [|w ws]; [by repeat constructor|].
  apply Forall_cons in IH as [Hw Hws].
  destruct (Ascii.eqb c "/") eqn:Hc; repeat constructor; try done.
  simpl. by rewrite Hc.
Qed.

Lemma split_one (w : string) : no_slash w = true → Str.split "/" w = [w].
Proof.
  induction w as [|c w IH]; simpl; [done|].
  intros [Hc Hw]%andb_true_iff. rewrite (IH Hw).
  by destruct (Ascii.eqb c "/").
Qed.

Lemma split_app (w rest : string) :
  no_slash w = true →
  Str.split "/" (w +:+ String "/" rest) = w :: Str.split "/" rest.
Proof.
  induction w as [|c w IH]; simpl.
  - intros _. pose proof (split_nonempty rest) as Hne.
    by destruct (Str.split "/" rest) as [|x xs].
  - intros [Hc Hw]%andb_true_iff. rewrite (IH Hw).
    by destruct (Ascii.eqb c "/").
Qed.

Lemma append_slash (w rest : string) :
  w +:+ "/" +:+ rest = w +:+ String "/" rest.
Proof. induction w as [|c w IH]; [done|]. cbn [String.append]. by f_equal. Qed.

Lemma split_join (cs : list string) :
  cs ≠ [] → Forall (λ c, no_slash c = true) cs →
  Str.split "/" (Str.join "/" cs) = cs.
Proof.
  induction cs as [|c cs IH]; [done|]. intros _ [Hc Hcs]%Forall_cons.
  destruct cs as [|c' cs]; [by apply split_one|].
  change (Str.join "/" (c :: c' :: cs)) with (c +:+ "/" +:+ Str.join "/" (c' :: cs)).
  rewrite append_slash, split_app by done. by rewrite IH.
Qed.

(** A component that the loop of [normpath] keeps as it is. *)
Definition plain (c : string) : Prop :=
  c ≠ "" ∧ c ≠ "." ∧ c ≠ ".." ∧ no_slash c = true.

(** The components of a normal path, last one first: plain names on top
    of a block of [..], which only a relative path can have. *)
Definition normal_acc (k : nat) (acc : list string) : Prop :=
  ∃ n r, acc = r ++ replicate n ".." ∧ Forall plain r ∧ (k ≠ 0%nat → n = 0%nat).

Lemma normpath_comps_normal (k : nat) (comps acc : list string) :
  Forall (λ c, no_slash c = true) comps →
  normal_acc k acc →
  ∃ acc', normpath_comps k comps acc = rev acc' ∧ normal_acc k acc'.
Proof.
  revert acc. induction comps as [|comp comps IH]; intros acc Hcomps Hacc.
  { by exists acc. }
  apply Forall_cons in Hcomps as [Hcomp Hcomps]. cbn [normpath_comps].
  destruct (String.eqb_spec comp "") as [->|Hne]; [by apply IH|].
  destruct (String.eqb_spec comp ".") as [->|Hnd]; [by apply IH|].
  cbn [orb].
  destruct (String.eqb_spec comp "..") as [->|Hndd]; cbn [negb orb].
  - destruct Hacc as (n & r & -> & Hr & Hk).
    destruct r as [|c r].
    + destruct n as [|n]; cbn [app replicate].
      * destruct (Nat.eqb_spec k 0) as [->|Hk0]; cbn [andb orb].
        -- apply IH; [done|]. by exists 1%nat, [].
        -- apply IH; [done|]. by exists 0%nat, [].
      * rewrite orb_true_r. apply IH; [done|].
        exists (S (S n)), []. split_and!; [done|done|].
        intros Hk0. by specialize (Hk Hk0).
    + apply Forall_cons in Hr as [Hc Hr]. cbn [app].
      assert (String.eqb c ".." = false) as ->
        by (apply String.eqb_neq; apply Hc).
      assert ((k =? 0)%nat && false = false) as -> by apply andb_false_r.
      cbn [orb tl]. apply IH; [done|]. by exists n, r.
  - apply IH; [done|].
    destruct Hacc as (n & r & -> & Hr & Hk).
    destruct n as [|n].
    + exists 0%nat, (comp :: r). split_and!; [done| |done].
      by constructor.
    + (* a plain name after a block of [..] *)
      exists (S n), (comp :: r). split_and!; [done| |done]. by constructor.
Qed.

Lemma normpath_comps_plain (k : nat) (rest acc : list string) :
  Forall plain rest → normpath_comps k rest acc = rev acc ++ rest.
Proof.
  revert acc. induction rest as [|c rest IH]; intros acc Hrest.
  { simpl. by rewrite app_nil_r. }
  apply Forall_cons in Hrest as [(Hne & Hnd & Hndd & _) Hrest].
  cbn [normpath_comps].
  rewrite (proj2 (String.eqb_neq c "")), (proj2 (String.eqb_neq c ".")),
    (proj2 (String.eqb_neq c "..")) by done.
  cbn [orb negb]. rewrite IH by done. simpl. by rewrite <-app_assoc.
Qed.

Lemma normpath_comps_dots (n m : nat) (rest : list string) :
  normpath_comps 0 (replicate n ".." ++ rest) (replicate m "..")
  = normpath_comps 0 rest (replicate (n + m) "..").
Proof.
  revert m. induction n as [|n IH]; intros m; [done|].
  transitivity (normpath_comps 0 (replicate n ".." ++ rest) (replicate (S m) "..")).
  { by destruct m. }
  rewrite IH. by rewrite Nat.add_succ_r.
Qed.

Lemma normal_fixed (k : nat) (acc : list string) :
  normal_acc k acc →
  normpath_comps k (rev acc) [] = rev acc
  ∧ Forall (λ c, c ≠ "" ∧ no_slash c = true) (rev acc).
Proof.
  intros (n & r & -> & Hr & Hk). rewrite rev_app_distr.
  assert (Hrev : rev (replicate n "..") = replicate n "..").
  { rewrite rev_alt. apply (reverse_replicate n ".."). }
  rewrite Hrev.
  assert (Hplain : Forall plain (rev r)).
  { rewrite rev_alt. by apply Forall_reverse. }
  split.
  - destruct (decide (k = 0%nat)) as [->|Hk0].
    + rewrite (normpath_comps_dots n 0), normpath_comps_plain by done.
      by rewrite Nat.add_0_r, Hrev.
    + rewrite (Hk Hk0). simpl. by rewrite normpath_comps_plain.
  - apply Forall_app. split.
    + apply Forall_replicate. by split.
    + eapply Forall_impl; [exact Hplain|]. by intros c (? & _ & _ & ?).
Qed.

Lemma split_slash (z : string) :
  Str.split "/" (String "/" z) = "" :: Str.split "/" z.
Proof.
  simpl. pose proof (split_nonempty z). by destruct (Str.split "/" z).
Qed.

Lemma join_head (a : ascii) (c : string) (l : list string) :
  ∃ z, Str.join "/" (String a c :: l) = String a z.
Proof. destruct l; by eexists. Qed.

(** The path that [normpath] assembles from normal components is left
    unchanged by [normpath]. *)
Lemma normpath_of_normal (k : nat) (acc : list string) :
  (k ≤ 2)%nat → normal_acc k acc →
  let p := Str.join "/" (rev acc) in
  let p := match k with
           | O => p
           | 1%nat => "/" +:+ p
           | _ => "//" +:+ p
           end in
  normpath (if String.eqb p "" then "." else p) = (if String.eqb p "" then "." else p).
Proof.
  intros Hk2 [Hfix Hall]%normal_fixed. cbv zeta.
  destruct (rev acc) as [|c l] eqn:Hl.
  { destruct k as [|[|[|k]]]; [by vm_compute..|lia]. }
  apply Forall_cons in Hall as [[Hc Hcs] Hall'].
  assert (Hno : Forall (λ c, no_slash c = true) (c :: l)).
  { constructor; [done|]. eapply Forall_impl; [exact Hall'|]. by intros ? [_ ?]. }
  pose proof (split_join (c :: l) ltac:(done) Hno) as Hsplit.
  destruct c as [|a c]; [done|].
  simpl in Hcs. apply andb_true_iff in Hcs as [Ha%negb_true_iff _].
  destruct (join_head a c l) as [z Hz]. rewrite Hz in *.
  assert (Hpre : String.prefix "/" (String a z) = false).
  { destruct (String.prefix _ _) eqn:E; [|done].
    apply prefix_spec in E as [post E]. cbv [String.append] in E.
      first [by simplify_eq|simplify_eq; by vm_compute in Ha]. }
  destruct k as [|[|[|k]]]; [| | |lia].
  - (* a relative path *)
    assert (String.eqb (String a z) "" = false) as Hnz by done.
    rewrite Hnz. unfold normpath. rewrite Hnz.
    unfold Str.startswith. rewrite Hpre. rewrite Hsplit, Hfix, Hz. by rewrite Hnz.
  - (* one leading slash *)
    change ("/" +:+ String a z) with (String "/" (String a z)).
    assert (String.eqb (String "/" (String a z)) "" = false) as -> by done.
    unfold normpath.
    assert (String.eqb (String "/" (String a z)) "" = false) as -> by done.
    unfold Str.startswith.
    assert (String.prefix "/" (String "/" (String a z)) = true) as -> by done.
    assert (String.prefix "//" (String "/" (String a z)) = false) as ->.
    { destruct (String.prefix _ _) eqn:E; [|done].
      apply prefix_spec in E as [post E]. cbv [String.append] in E.
      first [by simplify_eq|simplify_eq; by vm_compute in Ha]. }
    cbn [andb]. rewrite split_slash, Hsplit.
    change (normpath_comps 1 ("" :: String a c :: l) [])
      with (normpath_comps 1 (String a c :: l) []).
    rewrite Hfix, Hz.
    change ("/" +:+ String a z) with (String "/" (String a z)).
    by assert (String.eqb (String "/" (String a z)) "" = false) as -> by done.
  - (* two leading slashes *)
    change ("//" +:+ String a z) with (String "/" (String "/" (String a z))).
    assert (String.eqb (String "/" (String "/" (String a z))) "" = false) as -> by done.
    unfold normpath.
    assert (String.eqb (String "/" (String "/" (String a z))) "" = false) as -> by done.
    unfold Str.startswith.
    assert (String.prefix "/" (String "/" (String "/" (String a z))) = true) as -> by done.
    assert (String.prefix "//" (String "/" (String "/" (String a z))) = true) as -> by done.
    assert (String.prefix "///" (String "/" (String "/" (String a z))) = false) as ->.
    { destruct (String.prefix _ _) eqn:E; [|done].
      apply prefix_spec in E as [post E]. cbv [String.append] in E.
      first [by simplify_eq|simplify_eq; by vm_compute in Ha]. }
    cbn [andb negb]. rewrite !split_slash, Hsplit.
    change (normpath_comps 2 ("" :: "" :: String a c :: l) [])
      with (normpath_comps 2 (String a c :: l) []).
    rewrite Hfix, Hz.
    change ("//" +:+ String a z) with (String "/" (String "/" (String a z))).
    by assert (String.eqb (String "/" (String "/" (String a z))) "" = false) as -> by done.
Qed.

Lemma normpath_idempotent (path : string) : normpath (normpath path) = normpath path.
Proof.
  unfold normpath at 2 3.
  destruct (String.eqb path ""); [by vm_compute|].
  set (k := if Str.startswith path "/"
            then if Str.startswith path "//" && negb (Str.startswith path "///")
                 then 2%nat else 1%nat
            else 0%nat).
  assert (Hk : (k ≤ 2)%nat).
  { unfold k. destruct (Str.startswith path "/"); [|lia].
    destruct (_ && _); lia. }
  destruct (normpath_comps_normal k (Str.split "/" path) []) as (acc & Hacc & Hnormal).
  { apply split_no_slash. }
  { exists 0%nat, []. by split_and!. }
  rewrite Hacc. by apply normpath_of_normal.
Qed.

(** The environment probe returns paths in normal form. *)
Lemma environment_probe_normal (w : world) (p : string) :
  p ∈ _check_environment_vars w → normpath p = p.
Proof.
  unfold _check_environment_vars. rewrite env_fold_elem_of.
  intros [?%elem_of_nil|(var & _ & value & _ & _ & Hp)]; [done|].
  destruct Hp as [[_ ->]|(_ & _ & ->)]; apply normpath_idempotent.
Qed.

(** ** What a search returns is valid *)

(** The probes are called in worlds that differ from the initial one by
    the clock only. *)
Lemma run_methods_log_world (ms : list (string * method)) (w : world) (self : finder)
    (l : launch) :
  l ∈ (run_methods ms w self).2 → ∃ t, l.2.1 = set_clock t w.
Proof.
  revert w self. induction ms as [|[name m] rest IH]; intros w self.
  - by intros ?%elem_of_nil.
  - destruct (stop_probing w self) eqn:Hstop.
    + simpl. rewrite Hstop. by intros ?%elem_of_nil.
    + rewrite run_methods_step by done. cbn zeta. cbn [fst snd].
      intros [->|Hin]%elem_of_cons.
      * exists (clock w). simpl. by rewrite set_clock_same.
      * destruct (IH _ _ Hin) as [t Ht]. by exists t.
Qed.

Lemma load_cache_valid (w : world) (x : string) :
  x ∈ _load_cache w → _is_valid_tessdata_quick (fs w) x = true.
Proof.
  unfold _load_cache.
  destruct (cache w) as [f|]; [|by intros ?%elem_of_nil].
  destruct (_ >? _); [by intros ?%elem_of_nil|].
  destruct (content f) as [data|]; [|by intros ?%elem_of_nil].
  destruct (filter _ _) as [|y l] eqn:Hfilter; [by intros ?%elem_of_nil|].
  rewrite <-Hfilter. by intros [? _]%list_elem_of_filter.
Qed.

(** The four probes whose results come from the host. *)
Definition host_probes (h : host) : list method :=
  [ _check_tesseract_command h; _check_common_paths_smart h;
    _check_binary_relative_paths h; _check_package_locations h ].

(** Every path that a search returns passes the validator on the
    filesystem of the search, given that the probes of the host return
    paths in normal form (they return [abspath] or [resolve] output, as the
    environment probe does): a cache hit returns stored paths that have
    just been validated again, and a fresh search validates every
    candidate before it ranks it. *)
Theorem search_result_validated (h : host) (w : world) (self : finder)
    (use_cache : bool) (x : string) :
  (∀ m t self' paths p,
     m ∈ host_probes h → (m (set_clock t w) self').1 = Ok paths →
     p ∈ paths → normpath p = p) →
  x ∈ result (find_tessdata_paths h w self use_cache) →
  _is_valid_tessdata_quick (fs w) x = true.
Proof.
  intros Hnorm. unfold find_tessdata_paths.
  destruct (if use_cache then _load_cache w else []) eqn:Hcached.
  - set (self0 := {| timeout := timeout self; start_time := Some (clock w);
                     found_paths := ∅; os_type := os_type self |}).
    set (w0 := set_clock (clock w + startup_time h) w).
    destruct (run_methods_world (methods h) w0 self0) as [t Hw1].
    pose proof (run_methods_found (methods h) w0 self0) as Hfound.
    pose proof (run_methods_log_world (methods h) w0 self0) as Hworld.
    destruct (run_methods (methods h) w0 self0) as [[w1 self1] log].
    simpl in Hw1, Hfound, Hworld. subst w1. simpl.
    intros Hx. rewrite finalize_paths_perm in Hx.
    apply collect_valid_elem_of in Hx as (p & Hp%elem_of_elements & Hvalid & ->).
    apply Hfound in Hp as [Hp|(name & m & w' & self' & paths & Hlog & Hm & Hout & Hp)].
    { by apply elem_of_empty in Hp. }
    destruct (Hworld _ Hlog) as [t' Hw']. simpl in Hw'. subst w'.
    assert (Hp' : normpath p = p); [|by rewrite Hp'].
    unfold methods in Hm. apply elem_of_cons in Hm as [[= -> ->]|Hm].
    + simpl in Hout. injection Hout as <-. by apply environment_probe_normal in Hp.
    + apply (Hnorm m t' self' paths p); [|done..].
      unfold host_probes.
      repeat (apply elem_of_cons in Hm as [[= _ ->]|Hm]);
        [by repeat constructor..|by apply elem_of_nil in Hm].
  - destruct use_cache; [|done]. simpl. rewrite <-Hcached. apply load_cache_valid.
Qed.

Lemma search_result_validated_witness :
  result (find_tessdata_paths h_env w_env (new_finder 8 "linux") true)
    = ["/usr/share/tessdata"; "/opt/tess"]
  ∧ _is_valid_tessdata_quick (fs w_env) "/opt/tess" = true.
Proof.
  split; [by vm_compute|].
  apply (search_result_validated h_env w_env (new_finder 8 "linux") true "/opt/tess").
  - intros m t self' paths p Hm Hout Hp. unfold host_probes in Hm.
    repeat (apply elem_of_cons in Hm as [->|Hm]);
      [..|exfalso; by apply elem_of_nil in Hm];
      vm_compute in Hout; try done; injection Hout as <-;
      repeat (apply elem_of_cons in Hp as [->|Hp]);
      try (by vm_compute); exfalso; by apply elem_of_nil in Hp.
  - assert (result (find_tessdata_paths h_env w_env (new_finder 8 "linux") true)
            = ["/usr/share/tessdata"; "/opt/tess"]) as -> by by vm_compute.
    right. left.
Defined.

(** ** [get_languages_from_path] *)

Lemma lower_app (s t : string) : Str.lower (s +:+ t) = Str.lower s +:+ Str.lower t.
Proof. induction s as [|a s IH]; [done|]. rewrite app_cons. simpl. by rewrite IH. Qed.

Lemma drop_last_app (s t : string) :
  Str.drop_last (String.length t) (s +:+ t) = s.
Proof.
  unfold Str.drop_last. rewrite length_app.
  replace (String.length s + String.length t - String.length t)%nat
    with (String.length s) by lia.
  apply take_app_length.
Qed.


(** Naming files after language codes and listing the directory gives
    the codes back: a readable directory whose entries are [c.traineddata]
    for the codes [c] of a list yields exactly that list, in listing
    order. *)
Theorem languages_round_trip (fs : filesystem) (d : string) sz (codes : list string) :
  fs !! d = Some (Dir true sz ((λ c, c +:+ ".traineddata") <$> codes)) →
  get_languages_from_path fs d = codes.
Proof.
  intros Hd. rewrite (get_languages_from_path_dir _ _ _ _ Hd).
  rewrite filter_all.
  - rewrite <-list_fmap_compose. rewrite <-(list_fmap_id codes) at 2.
    apply list_fmap_ext. intros _ c _. simpl.
    apply (drop_last_app c ".traineddata").
  - intros f (c & -> & _)%list_elem_of_fmap.
    rewrite lower_app. apply endswith_spec. by eexists.
Qed.

Lemma languages_round_trip_witness :
  get_languages_from_path fs_env "/opt/tess" = ["eng"; "fra"; "deu"].
Proof.
  apply (languages_round_trip fs_env "/opt/tess" 4096 ["eng"; "fra"; "deu"]).
  reflexivity.
Defined.




Lemma clear_cache_effect_witness :
  (clear_cache true w_warm).1 = true
  ∧ _load_cache (clear_cache true w_warm).2 = []
  ∧ clear_cache true (clear_cache true w_warm).2 = (false, (clear_cache true w_warm).2).
Proof.
  destruct (clear_cache_effect true w_warm) as (Hiff & Hafter & _).
  assert (Hdeleted : (clear_cache true w_warm).1 = true).
  { apply Hiff. split; [by eexists|done]. }
  destruct (Hafter Hdeleted) as (Hload & Hagain & _).
  by split_and!.
Defined.

(** ** The exhaustive finder: [find_paths] *)

(** Step 1 of [find_paths]. *)
Definition env_phase (w : world) : list string :=
  match environ w !! "TESSDATA_PREFIX" with
  | Some env_path =>
      if negb (String.eqb env_path "") && os_path_isdir (fs w) env_path
         && _is_valid_tessdata_dir (fs w) env_path
      then [env_path] else []
  | None => []
  end.

(** The directory tested for the binary [tess_bin] and the offset [rel]. *)
Definition binary_candidate (h : host2) (tess_bin rel : string) : string :=
  normpath (path_join (bin_dir h tess_bin) rel).

(** [os.path.isdir(path) and _is_valid_tessdata_dir(path)] *)
Definition dir_and_valid (fs : filesystem) (path : string) : bool :=
  os_path_isdir fs path && _is_valid_tessdata_dir fs path.

(** The inner loop of step 2, for one binary. *)
Definition add_binary_paths (w : world) (h : host2) (paths : list string)
    (tess_bin : string) : list string :=
  foldl (fun paths rel =>
           let path := binary_candidate h tess_bin rel in
           if dir_and_valid (fs w) path && negb (bool_decide (path ∈ paths))
           then paths ++ [path] else paths)
        paths relative_paths.

Lemma find_paths_phases (w : world) (h : host2) :
  find_paths w h =
    append_new
      (append_new
         (append_new
            (foldl (add_binary_paths w h) (env_phase w) (_find_tesseract_binaries h))
            (_get_tessdata_from_tesseract h))
         (_comprehensive_tessdata_search h))
      (_check_user_locations (fs w) h).
Proof. reflexivity. Qed.

(** A loop that appends [g b] when it passes [ok] and is not yet in the
    list keeps what is there, adds nothing twice and adds only such
    values. *)
Lemma add_checked_spec {B} (g : B → string) (ok : string → bool)
    (items : list B) (acc : list string) :
  let r := foldl (fun paths b =>
                    if ok (g b) && negb (bool_decide (g b ∈ paths))
                    then paths ++ [g b] else paths)
                 acc items in
  (NoDup acc → NoDup r)
  ∧ (∀ x, x ∈ r ↔ x ∈ acc ∨ ∃ b, b ∈ items ∧ x = g b ∧ ok (g b) = true)
  ∧ ∃ k, r = acc ++ k.
Proof.
  revert acc. induction items as [|b items IH]; intros acc; cbn [foldl].
  { split_and!; [done| |by exists []; rewrite app_nil_r].
    intros x. split; [by left|]. intros [?|(? & ?%elem_of_nil & _)]; done. }
  destruct (ok (g b)) eqn:Hok; [case_bool_decide as Hin|]; cbn [andb negb].
  - destruct (IH acc) as (Hnd & Hmem & Hpre). split_and!; [done| |done].
    intros x. rewrite Hmem. split.
    + intros [?|(b' & ? & ? & ?)]; [by left|]. right. exists b'.
      by rewrite elem_of_cons; auto.
    + intros [?|(b' & [->|?]%elem_of_cons & -> & ?)]; [by left|by left|].
      right. by exists b'.
  - destruct (IH (acc ++ [g b])) as (Hnd & Hmem & [k Hpre]). split_and!.
    + intros Hacc. apply Hnd, NoDup_app. split_and!; [done| |apply NoDup_singleton].
      by intros x Hx ->%list_elem_of_singleton.
    + intros x. rewrite Hmem, elem_of_app, list_elem_of_singleton. split.
      * intros [[?| ->]|(b' & ? & ? & ?)]; [by left| |].
        -- right. exists b. by rewrite elem_of_cons; auto.
        -- right. exists b'. by rewrite elem_of_cons; auto.
      * intros [?|(b' & [->|?]%elem_of_cons & -> & ?)]; [by auto|by auto|].
        right. by exists b'.
    + exists ([g b] ++ k). by rewrite Hpre, <-app_assoc.
  - destruct (IH acc) as (Hnd & Hmem & Hpre). split_and!; [done| |done].
    intros x. rewrite Hmem. split.
    + intros [?|(b' & ? & ? & ?)]; [by left|]. right. exists b'.
      by rewrite elem_of_cons; auto.
    + intros [?|(b' & [->|?]%elem_of_cons & -> & ?)]; [by left|congruence|].
      right. by exists b'.
Qed.

Lemma add_binary_paths_spec (w : world) (h : host2) (acc : list string) (b : string) :
  (NoDup acc → NoDup (add_binary_paths w h acc b))
  ∧ (∀ x, x ∈ add_binary_paths w h acc b ↔
          x ∈ acc ∨ ∃ rel, rel ∈ relative_paths ∧ x = binary_candidate h b rel
                           ∧ dir_and_valid (fs w) x = true)
  ∧ ∃ k, add_binary_paths w h acc b = acc ++ k.
Proof.
  destruct (add_checked_spec (binary_candidate h b) (dir_and_valid (fs w))
              relative_paths acc) as (Hnd & Hmem & Hpre).
  split_and!; [exact Hnd| |exact Hpre].
  intros x. rewrite (Hmem x).
  split; (intros [?|(rel & ? & Hx & ?)]; [by left|]);
    right; exists rel; by subst x.
Qed.

Lemma binaries_fold_spec (w : world) (h : host2) (bins acc : list string) :
  let r := foldl (add_binary_paths w h) acc bins in
  (NoDup acc → NoDup r)
  ∧ (∀ x, x ∈ r → x ∈ acc ∨ dir_and_valid (fs w) x = true)
  ∧ ∃ k, r = acc ++ k.
Proof.
  revert acc. induction bins as [|b bins IH]; intros acc; cbn [foldl].
  { split_and!; [done|by left|by exists []; rewrite app_nil_r]. }
  destruct (add_binary_paths_spec w h acc b) as (Hnd1 & Hmem1 & [k1 Hpre1]).
  destruct (IH (add_binary_paths w h acc b)) as (Hnd & Hmem & [k Hpre]).
  split_and!.
  - auto.
  - intros x [[?|(? & _ & _ & ?)]%Hmem1|?]%Hmem; auto.
  - exists (k1 ++ k). by rewrite Hpre, Hpre1, <-app_assoc.
Qed.

Lemma append_new_prefix (langs items : list string) :
  ∃ k, append_new langs items = langs ++ k.
Proof.
  induction items as [|item items IH] using rev_ind.
  { exists []. by rewrite append_new_nil, app_nil_r. }
  rewrite append_new_snoc. destruct IH as [k ->].
  case_bool_decide; [by exists k|]. exists (k ++ [item]). by rewrite app_assoc.
Qed.

Lemma env_phase_valid (w : world) (x : string) :
  x ∈ env_phase w → dir_and_valid (fs w) x = true.
Proof.
  unfold env_phase, dir_and_valid.
  destruct (environ w !! "TESSDATA_PREFIX") as [v|]; [|by intros ?%elem_of_nil].
  destruct (negb _ && _ && _) eqn:E; [|by intros ?%elem_of_nil].
  intros ->%list_elem_of_singleton.
  apply andb_true_iff in E as [[_ ?]%andb_true_iff ?]. by apply andb_true_iff.
Qed.

Lemma user_locations_valid (fs : filesystem) (h : host2) (x : string) :
  x ∈ _check_user_locations fs h → dir_and_valid fs x = true.
Proof. unfold _check_user_locations. by intros [? _]%list_elem_of_filter. Qed.

(** [find_paths] never lists a path twice, whatever the helpers return. *)
Theorem find_paths_no_duplicates (w : world) (h : host2) :
  NoDup (find_paths w h).
Proof.
  rewrite find_paths_phases. do 3 apply append_new_NoDup.
  apply binaries_fold_spec. unfold env_phase.
  destruct (environ w !! "TESSDATA_PREFIX"); [|constructor].
  destruct (_ && _ && _); [apply NoDup_singleton|constructor].
Qed.

(** In the exhaustive finder the environment wins: when [TESSDATA_PREFIX]
    names a directory that passes the validator, that directory, exactly as
    spelled in the variable, is the first path and the primary path. *)
Theorem env_path_is_primary (w : world) (h : host2) (env_path : string) :
  environ w !! "TESSDATA_PREFIX" = Some env_path →
  env_path ≠ "" →
  os_path_isdir (fs w) env_path = true →
  _is_valid_tessdata_dir (fs w) env_path = true →
  find_primary_path w h = Some env_path
  ∧ ∃ rest, find_paths w h = env_path :: rest.
Proof.
  intros Henv Hne Hdir Hvalid.
  assert (Hphase : env_phase w = [env_path]).
  { unfold env_phase. rewrite Henv, Hdir, Hvalid.
    by destruct (String.eqb_spec env_path ""). }
  assert (Hrest : ∃ rest, find_paths w h = env_path :: rest).
  { rewrite find_paths_phases, Hphase.
    destruct (binaries_fold_spec w h (_find_tesseract_binaries h) [env_path])
      as (_ & _ & [k1 ->]).
    destruct (append_new_prefix ([env_path] ++ k1) (_get_tessdata_from_tesseract h))
      as [k2 ->].
    destruct (append_new_prefix (([env_path] ++ k1) ++ k2)
                (_comprehensive_tessdata_search h)) as [k3 ->].
    destruct (append_new_prefix ((([env_path] ++ k1) ++ k2) ++ k3)
                (_check_user_locations (fs w) h)) as [k4 ->].
    by eexists. }
  split; [|done]. unfold find_primary_path. by destruct Hrest as [rest ->].
Qed.

Definition h2_env : host2 :=
  {| _find_tesseract_binaries := ["/usr/bin/tesseract"];
     bin_dir := fun _ => "/usr/bin";
     _get_tessdata_from_tesseract := [];
     _comprehensive_tessdata_search := ["/usr/share/tessdata"];
     home := "/root" |}.

Lemma env_path_is_primary_witness :
  find_primary_path w_env h2_env = Some "/opt/tess"
  ∧ ∃ rest, find_paths w_env h2_env = "/opt/tess" :: rest.
Proof.
  apply (env_path_is_primary w_env h2_env "/opt/tess"); by vm_compute.
Defined.

(** Every path of [find_paths] is an existing directory that passes
    [_is_valid_tessdata_dir], provided the two helpers taken from the host
    (the engine's own report and the filesystem search) return only such
    directories. *)
Theorem find_paths_all_valid (w : world) (h : host2) (x : string) :
  (∀ p, p ∈ _get_tessdata_from_tesseract h → dir_and_valid (fs w) p = true) →
  (∀ p, p ∈ _comprehensive_tessdata_search h → dir_and_valid (fs w) p = true) →
  x ∈ find_paths w h →
  os_path_isdir (fs w) x = true ∧ _is_valid_tessdata_dir (fs w) x = true.
Proof.
  intros Htess Hsearch. rewrite find_paths_phases, !append_new_elem_of.
  intros Hx. apply andb_true_iff. change (dir_and_valid (fs w) x = true).
  destruct Hx as [[[Hx|?]|?]|?].
  - destruct (binaries_fold_spec w h (_find_tesseract_binaries h) (env_phase w))
      as (_ & Hmem & _).
    destruct (Hmem x Hx) as [?|?]; [by apply env_phase_valid|done].
  - by apply Htess.
  - by apply Hsearch.
  - by eapply user_locations_valid.
Qed.

Lemma find_paths_all_valid_witness :
  os_path_isdir (fs w_env) "/usr/share/tessdata" = true
  ∧ _is_valid_tessdata_dir (fs w_env) "/usr/share/tessdata" = true.
Proof.
  apply (find_paths_all_valid w_env h2_env "/usr/share/tessdata").
  - by intros p ?%elem_of_nil.
  - by intros p ->%list_elem_of_singleton.
  - assert (find_paths w_env h2_env = ["/opt/tess"; "/usr/share/tessdata"]) as ->
      by by vm_compute.
    right. left.
Defined.

(** ** The recursive search for [tessdata] directories *)

(** [os.path.basename(p)]: what follows the last slash. *)
Definition basename (p : string) : string :=
  Str.drop (Z.to_nat (Str.rfind "/" p + 1)) p.

Definition skip_dirs : list string := ["proc"; "sys"; "dev"; "run"; "tmp"].

(** The body of the loop over the entries of [current_dir] in the nested
    function [_search] of [_search_tessdata_recursive]; [descend] is the
    recursive call at [depth + 1].  [islink] is [os.path.islink]: the
    filesystem map follows links, so which paths are links is given
    separately. *)
Definition visit_entry (fs : filesystem) (islink : string → bool)
    (descend : string → list string → list string)
    (current_dir : string) (found : list string) (entry : string) : list string :=
  let entry_path := path_join current_dir entry in
  if os_path_isdir fs entry_path && negb (islink entry_path) then
    if negb (bool_decide (entry ∈ skip_dirs)) then descend entry_path found
    else found
  else found.

(** The nested function [_search].  [levels] is [max_depth + 1 - depth],
    the number of levels still to be visited: zero is [depth > max_depth].
    [found] is the list the calls append to. *)
Fixpoint _search (fs : filesystem) (islink : string → bool) (levels : nat)
    (current_dir : string) (found : list string) : list string :=
  match levels with
  | O => found
  | S levels' =>
      let found :=
        if String.eqb (basename current_dir) "tessdata"
           && _is_valid_tessdata_dir fs current_dir
        then found ++ [current_dir] else found in
      try_except
        (listdir fs current_dir ≫=
           (λ entries : list string,
              Ok (foldl (visit_entry fs islink (_search fs islink levels') current_dir)
                        found entries)))
        (fun _ => found)
  end.

(** [_search_tessdata_recursive(root_dir, max_depth)] *)
Definition _search_tessdata_recursive (fs : filesystem) (islink : string → bool)
    (root_dir : string) (max_depth : nat) : list string :=
  _search fs islink (S max_depth) root_dir [].

(** [names] leads from [d] downwards through listed entries that are
    directories, are no symbolic links and are not in [skip_dirs]. *)
Fixpoint walkable (fs : filesystem) (islink : string → bool) (d : string)
    (names : list string) : Prop :=
  match names with
  | [] => True
  | n :: ns =>
      (∃ sz entries, fs !! d = Some (Dir true sz entries) ∧ n ∈ entries)
      ∧ os_path_isdir fs (path_join d n) = true
      ∧ islink (path_join d n) = false
      ∧ (n ∉ skip_dirs)
      ∧ walkable fs islink (path_join d n) ns
  end.

(** A [tessdata] directory that passes the validator. *)
Definition is_hit (fs : filesystem) (x : string) : Prop :=
  basename x = "tessdata" ∧ _is_valid_tessdata_dir fs x = true.

Lemma search_here (fs : filesystem) (d : string) (found : list string) (x : string) :
  x ∈ (if String.eqb (basename d) "tessdata" && _is_valid_tessdata_dir fs d
       then found ++ [d] else found)
  ↔ x ∈ found ∨ (x = d ∧ is_hit fs d).
Proof.
  unfold is_hit.
  destruct (String.eqb_spec (basename d) "tessdata") as [Hb|Hb];
    destruct (_is_valid_tessdata_dir fs d) eqn:Hv; cbn [andb];
    rewrite ?elem_of_app, ?list_elem_of_singleton; split; try tauto;
    intros [?|(_ & ? & ?)]; try tauto; congruence.
Qed.

Lemma visit_entries_keep (fs : filesystem) (islink : string → bool)
    (descend : string → list string → list string) (d : string)
    (entries found : list string) (x : string) :
  (∀ p acc, x ∈ acc → x ∈ descend p acc) →
  x ∈ found →
  x ∈ foldl (visit_entry fs islink descend d) found entries.
Proof.
  intros Hkeep. revert found.
  induction entries as [|e entries IH]; intros found Hx; [done|].
  cbn [foldl]. apply IH. unfold visit_entry.
  destruct (_ && _); [|done]. destruct (negb _); [by apply Hkeep|done].
Qed.

(** Nothing that was found is lost. *)
Lemma search_keeps (fs : filesystem) (islink : string → bool) (levels : nat)
    (d : string) (found : list string) (x : string) :
  x ∈ found → x ∈ _search fs islink levels d found.
Proof.
  revert d found. induction levels as [|levels IH]; intros d found Hx; [done|].
  cbn [_search].
  assert (Hhere : x ∈ (if String.eqb (basename d) "tessdata"
                          && _is_valid_tessdata_dir fs d
                       then found ++ [d] else found))
    by (apply search_here; by left).
  destruct (listdir fs d) as [entries|e]; [|done].
  simpl. apply visit_entries_keep; [|done]. intros p acc. apply IH.
Qed.

Lemma visit_entries_sound (fs : filesystem) (islink : string → bool)
    (descend : string → list string → list string) (d : string)
    (entries found : list string) (x : string) :
  x ∈ foldl (visit_entry fs islink descend d) found entries →
  x ∈ found
  ∨ ∃ e acc, e ∈ entries
             ∧ os_path_isdir fs (path_join d e) = true
             ∧ islink (path_join d e) = false
             ∧ (e ∉ skip_dirs)
             ∧ x ∈ descend (path_join d e) acc
             ∧ x ∉ acc.
Proof.
  revert found. induction entries as [|e entries IH]; intros found; [by left|].
  cbn [foldl]. intros [Hx|(e' & acc & ? & ?)]%IH.
  - unfold visit_entry in Hx.
    destruct (os_path_isdir fs (path_join d e)) eqn:Hdir; [|by left].
    destruct (islink (path_join d e)) eqn:Hlink; [by left|].
    cbn [andb negb] in Hx. case_bool_decide as Hskip; [by left|].
    cbn [negb] in Hx.
    destruct (decide (x ∈ found)) as [?|Hnew]; [by left|].
    right. exists e, found. split_and!; try done. by left.
  - right. exists e', acc. split; [by right|done].
Qed.

Lemma search_sound_levels (fs : filesystem) (islink : string → bool) (levels : nat)
    (d : string) (found : list string) (x : string) :
  x ∈ _search fs islink levels d found →
  x ∈ found
  ∨ ∃ names, (length names < levels)%nat
             ∧ walkable fs islink d names
             ∧ x = foldl path_join d names
             ∧ is_hit fs x.
Proof.
  revert d found. induction levels as [|levels IH]; intros d found; [by left|].
  cbn [_search].
  assert (Hhere : x ∈ (if String.eqb (basename d) "tessdata"
                          && _is_valid_tessdata_dir fs d
                       then found ++ [d] else found) →
                  x ∈ found
                  ∨ ∃ names, (length names < S levels)%nat
                             ∧ walkable fs islink d names
                             ∧ x = foldl path_join d names
                             ∧ is_hit fs x).
  { intros [?|[-> ?]]%search_here; [by left|].
    right. exists []. split_and!; [simpl; lia|done|done|done]. }
  unfold listdir.
  destruct (fs !! d) as [[r sz|[] sz entries|]|] eqn:Hd;
    cbn [mbind py_bind try_except]; try exact Hhere.
  intros Hx. apply visit_entries_sound in Hx
    as [Hx|(e & acc & He & Hdir & Hlink & Hskip & Hx & Hnew)]; [by apply Hhere|].
  apply IH in Hx as [?|(names & Hlen & Hwalk & -> & Hhit)]; [done|].
  right. exists (e :: names). split_and!; [simpl; lia| |done|done].
  cbn [walkable]. split_and!; [by exists sz, entries|done..].
Qed.

(** Soundness and bounds of [_search_tessdata_recursive]: every directory
    it returns is named [tessdata] and passes the validator, and lies at
    most [max_depth] levels below the root, along entries of listed
    directories none of which is a symbolic link or one of [proc], [sys],
    [dev], [run], [tmp]. *)
Theorem recursive_search_sound (fs : filesystem) (islink : string → bool)
    (root_dir : string) (max_depth : nat) (x : string) :
  x ∈ _search_tessdata_recursive fs islink root_dir max_depth →
  basename x = "tessdata"
  ∧ _is_valid_tessdata_dir fs x = true
  ∧ ∃ names, (length names ≤ max_depth)%nat
             ∧ walkable fs islink root_dir names
             ∧ x = foldl path_join root_dir names.
Proof.
  intros [?%elem_of_nil|(names & Hlen & Hwalk & -> & Hb & Hv)]%search_sound_levels;
    [done|].
  split_and!; [done|done|]. exists names. split_and!; [lia|done|done].
Qed.

Lemma visit_entries_complete (fs : filesystem) (islink : string → bool)
    (descend : string → list string → list string) (d : string)
    (entries found : list string) (e x : string) :
  (∀ p acc, x ∈ acc → x ∈ descend p acc) →
  (∀ acc, x ∈ descend (path_join d e) acc) →
  e ∈ entries →
  os_path_isdir fs (path_join d e) = true →
  islink (path_join d e) = false →
  e ∉ skip_dirs →
  x ∈ foldl (visit_entry fs islink descend d) found entries.
Proof.
  intros Hkeep Hfinds He Hdir Hlink Hskip. revert found.
  induction entries as [|e' entries IH]; intros found; [by apply elem_of_nil in He|].
  cbn [foldl]. apply elem_of_cons in He as [<-|He]; [|by apply IH].
  apply visit_entries_keep; [done|].
  unfold visit_entry. rewrite Hdir, Hlink. cbn [andb negb].
  rewrite bool_decide_false by done. apply Hfinds.
Qed.

Lemma search_complete_levels (fs : filesystem) (islink : string → bool)
    (levels : nat) (d : string) (found names : list string) :
  (length names < levels)%nat →
  walkable fs islink d names →
  is_hit fs (foldl path_join d names) →
  foldl path_join d names ∈ _search fs islink levels d found.
Proof.
  revert d found names.
  induction levels as [|levels IH]; intros d found names Hlen Hwalk Hhit; [lia|].
  cbn [_search]. destruct names as [|n names].
  - simpl in Hhit.
    assert (Hhere : d ∈ (if String.eqb (basename d) "tessdata"
                            && _is_valid_tessdata_dir fs d
                         then found ++ [d] else found))
      by (apply search_here; by right).
    simpl. destruct (listdir fs d) as [entries|e]; [|done].
    simpl. apply visit_entries_keep; [|done]. intros p acc. apply search_keeps.
  - destruct Hwalk as ((sz & entries & Hd & Hn) & Hdir & Hlink & Hskip & Hwalk).
    unfold listdir. rewrite Hd. simpl.
    apply (visit_entries_complete fs islink _ d entries _ n); try done.
    + intros p acc. apply search_keeps.
    + intros acc. apply IH; [simpl in Hlen; lia|done|done].
Qed.

(** Completeness: every validated [tessdata] directory that can be
    reached from the root within [max_depth] levels, along listed entries
    that are directories, no symbolic links and not skipped, is returned. *)
Theorem recursive_search_complete (fs : filesystem) (islink : string → bool)
    (root_dir : string) (max_depth : nat) (names : list string) :
  (length names ≤ max_depth)%nat →
  walkable fs islink root_dir names →
  basename (foldl path_join root_dir names) = "tessdata" →
  _is_valid_tessdata_dir fs (foldl path_join root_dir names) = true →
  foldl path_join root_dir names
    ∈ _search_tessdata_recursive fs islink root_dir max_depth.
Proof.
  intros Hlen Hwalk Hb Hv. apply search_complete_levels; [lia|done|by split].
Qed.

(** [/usr/share/tessdata] two levels below [/usr]; [/usr/tmp/tessdata]
    lies under a skipped directory. *)
Definition fs_tree : filesystem :=
  {[ "/usr" := Dir true 4096 ["share"; "tmp"; "bin"];
     "/usr/share" := Dir true 4096 ["tessdata"; "doc"];
     "/usr/share/tessdata" := Dir true 4096 ["eng.traineddata"];
     "/usr/share/doc" := Dir true 4096 [];
     "/usr/bin" := Dir true 4096 ["tesseract"];
     "/usr/bin/tesseract" := File true 100000;
     "/usr/tmp" := Dir true 4096 ["tessdata"];
     "/usr/tmp/tessdata" := Dir true 4096 ["eng.traineddata"] ]}.

Definition no_links : string → bool := fun _ => false.

Lemma recursive_search_example :
  _search_tessdata_recursive fs_tree no_links "/usr" 5 = ["/usr/share/tessdata"]
  ∧ _search_tessdata_recursive fs_tree no_links "/usr" 1 = [].
Proof. by vm_compute. Qed.

Lemma recursive_search_sound_witness :
  basename "/usr/share/tessdata" = "tessdata"
  ∧ _is_valid_tessdata_dir fs_tree "/usr/share/tessdata" = true
  ∧ ∃ names, (length names ≤ 5)%nat
             ∧ walkable fs_tree no_links "/usr" names
             ∧ "/usr/share/tessdata" = foldl path_join "/usr" names.
Proof.
  apply (recursive_search_sound fs_tree no_links "/usr" 5 "/usr/share/tessdata").
  assert (_search_tessdata_recursive fs_tree no_links "/usr" 5
          = ["/usr/share/tessdata"]) as -> by by vm_compute.
  left.
Defined.

Lemma recursive_search_complete_witness :
  "/usr/share/tessdata" ∈ _search_tessdata_recursive fs_tree no_links "/usr" 2.
Proof.
  apply (recursive_search_complete fs_tree no_links "/usr" 2 ["share"; "tessdata"]).
  - simpl. lia.
  - simpl. split_and!; try done.
    + exists 4096, ["share"; "tmp"; "bin"]. split; [by vm_compute|left].
    + intros Hin. by repeat (apply elem_of_cons in Hin as [?|Hin]);
        [..|apply elem_of_nil in Hin].
    + exists 4096, ["tessdata"; "doc"]. split; [by vm_compute|left].
    + intros Hin. by repeat (apply elem_of_cons in Hin as [?|Hin]);
        [..|apply elem_of_nil in Hin].
  - by vm_compute.
  - by vm_compute.
Defined.
